(** * DevSmith logger: buffering, flushing and requeue engine

    Shallow embedding of the two Python copies of [DevSmithLogger]:
    - [Canonical]: docs/integrations/python/logger.py
    - [SampleApp]: docs/integration-examples/tests/sample-apps/flask-app/app.py

    Python objects are explicit records, the mutable buffer is a list that is
    threaded through every operation, [threading.Lock] is a lock word holding
    its owner, the network is an input of [flush], and a call ends in one of
    four ways (see [Outcome]). *)

From Stdlib Require Import String Ascii List ZArith Bool Lia DecimalString.
Import ListNotations.
Open Scope string_scope.
Open Scope list_scope.
Set Warnings "-register-all".

(** ** Python values that travel in a log entry *)

(** JSON-serialisable values: what [context] and the entry dictionaries hold.
    A dictionary is an association list in insertion order, as Python dicts
    are ordered and [json=payload] serialises in that order. *)
Inductive Json : Type :=
| JNull
| JBool (b : bool)
| JInt (n : Z)
| JStr (s : string)
| JList (l : list Json)
| JObj (fields : list (string * Json)).

Definition Dict := list (string * Json).

(** [d[k]] / [k in d] on an ordered dictionary *)
Fixpoint dict_get (k : string) (d : Dict) : option Json :=
  match d with
  | [] => None
  | (k', v) :: d' => if String.eqb k k' then Some v else dict_get k d'
  end.

Definition dict_has (k : string) (d : Dict) : bool :=
  match dict_get k d with Some _ => true | None => false end.

Definition dict_keys (d : Dict) : list string := map fst d.

(** ** Strings *)

(** [str.upper()] on the ASCII letters; bytes outside a-z are kept. *)
Definition upper_ascii (c : ascii) : ascii :=
  let n := nat_of_ascii c in
  if (97 <=? n)%nat && (n <=? 122)%nat then ascii_of_nat (n - 32) else c.

Fixpoint upper (s : string) : string :=
  match s with
  | EmptyString => EmptyString
  | String c s' => String (upper_ascii c) (upper s')
  end.

Definition is_empty (s : string) : bool :=
  match s with EmptyString => true | _ => false end.

(** [s.rstrip(c)] for a one-character argument: drop every trailing [c]. *)
Fixpoint rstrip (c : ascii) (s : string) : string :=
  match s with
  | EmptyString => EmptyString
  | String a s' =>
      let r := rstrip c s' in
      if is_empty r && Ascii.eqb a c then EmptyString else String a r
  end.

(** [c * n] *)
Fixpoint replicate (n : nat) (c : ascii) : string :=
  match n with
  | O => EmptyString
  | S n' => String c (replicate n' c)
  end.

Definition slash : ascii := "/"%char.

(** ** Threads, exceptions, outcomes *)

Definition Tid := nat.

Inductive Exn : Type :=
| ValueError (msg : string)
| TypeError (msg : string)
| AttributeError (msg : string)
| OtherError (msg : string).

(** What a [requests.post] / [urlopen] attempt can come back with. *)
Inductive Response : Type :=
| Status (code : Z)                (* a response arrived *)
| TransportFailure (msg : string)  (* RequestException / URLError *)
| Unexpected (msg : string).       (* any other exception raised by the call *)

Record Request : Type := mkRequest {
  req_url : string;
  req_headers : list (string * string);
  req_project_slug : string;
  req_logs : list Dict;
  req_timeout : Z
}.

(** The JSON body that [json=payload] puts on the wire. *)
Definition body (r : Request) : Json :=
  JObj [("project_slug", JStr (req_project_slug r));
        ("logs", JList (map JObj (req_logs r)))].

(** Local diagnostic output ([print]). *)
Inductive Diag : Type :=
| FailedToSend (code : Z)
| NetworkError (msg : string)
| FlushError (msg : string).

(** ** The logger object and its surroundings

    One record holds the attributes of [self] together with the part of the
    process the methods act on: the requests issued so far (oldest first,
    each with what came back), the printed diagnostics, the wall clock and
    the number of [atexit] registrations.  Time is counted in an integral
    unit; [timer] is the deadline of the armed [threading.Timer]. *)
Record State : Type := mkState {
  api_key : string;
  api_url : string;
  project_slug : string;
  service_name : string;
  batch_size : Z;
  flush_interval : Z;
  buffer : list Dict;
  lock : option Tid;
  timer : option Z;
  sent : list (Request * Response);
  diag : list Diag;
  clock : Z;
  atexit_hooks : nat
}.

Definition set_buffer (b : list Dict) (s : State) : State :=
  mkState (api_key s) (api_url s) (project_slug s) (service_name s)
          (batch_size s) (flush_interval s) b (lock s) (timer s)
          (sent s) (diag s) (clock s) (atexit_hooks s).

Definition set_lock (l : option Tid) (s : State) : State :=
  mkState (api_key s) (api_url s) (project_slug s) (service_name s)
          (batch_size s) (flush_interval s) (buffer s) l (timer s)
          (sent s) (diag s) (clock s) (atexit_hooks s).

Definition set_timer (t : option Z) (s : State) : State :=
  mkState (api_key s) (api_url s) (project_slug s) (service_name s)
          (batch_size s) (flush_interval s) (buffer s) (lock s) t
          (sent s) (diag s) (clock s) (atexit_hooks s).

Definition set_clock (c : Z) (s : State) : State :=
  mkState (api_key s) (api_url s) (project_slug s) (service_name s)
          (batch_size s) (flush_interval s) (buffer s) (lock s) (timer s)
          (sent s) (diag s) c (atexit_hooks s).

Definition add_sent (r : Request) (a : Response) (s : State) : State :=
  mkState (api_key s) (api_url s) (project_slug s) (service_name s)
          (batch_size s) (flush_interval s) (buffer s) (lock s) (timer s)
          (sent s ++ [(r, a)]) (diag s) (clock s) (atexit_hooks s).

Definition add_diag (d : Diag) (s : State) : State :=
  mkState (api_key s) (api_url s) (project_slug s) (service_name s)
          (batch_size s) (flush_interval s) (buffer s) (lock s) (timer s)
          (sent s) (diag s ++ [d]) (clock s) (atexit_hooks s).

Definition add_atexit (s : State) : State :=
  mkState (api_key s) (api_url s) (project_slug s) (service_name s)
          (batch_size s) (flush_interval s) (buffer s) (lock s) (timer s)
          (sent s) (diag s) (clock s) (S (atexit_hooks s)).

(** How a call ends.  [threading.Lock] is not re-entrant: a thread that
    acquires the lock it already holds never proceeds ([Deadlock]); a thread
    that finds the lock held by another one waits for it ([Waits]). *)
Inductive Outcome (A : Type) : Type :=
| Returned (a : A) (s : State)
| Raised (e : Exn) (s : State)
| Deadlock (s : State)
| Waits (s : State).
Arguments Returned {A} a s.
Arguments Raised {A} e s.
Arguments Deadlock {A} s.
Arguments Waits {A} s.

Definition M (A : Type) : Type := State -> Outcome A.

Definition ret {A} (a : A) : M A := fun s => Returned a s.

Definition bind {A B} (m : M A) (k : A -> M B) : M B :=
  fun s =>
    match m s with
    | Returned a s' => k a s'
    | Raised e s' => Raised e s'
    | Deadlock s' => Deadlock s'
    | Waits s' => Waits s'
    end.

Definition raise {A} (e : Exn) : M A := fun s => Raised e s.
Definition get : M State := fun s => Returned s s.
Definition modify (f : State -> State) : M unit := fun s => Returned tt (f s).

Declare Scope py_scope.
Delimit Scope py_scope with py.
Notation "x <- m ;; k" := (bind m (fun x => k))
  (at level 61, m at next level, right associativity) : py_scope.
Notation "m ;;; k" := (bind m (fun _ => k))
  (at level 61, right associativity) : py_scope.
Open Scope py_scope.

(** [self.lock.acquire()] by thread [t] *)
Definition acquire (t : Tid) : M unit :=
  fun s =>
    match lock s with
    | None => Returned tt (set_lock (Some t) s)
    | Some owner => if Nat.eqb owner t then Deadlock s else Waits s
    end.

Definition release : M unit := modify (set_lock None).

(** [with self.lock: body]: the lock is released when the body returns or
    raises; a body that never finishes keeps it. *)
Definition with_lock {A} (t : Tid) (body : M A) : M A :=
  fun s =>
    match acquire t s with
    | Returned _ s1 =>
        match body s1 with
        | Returned a s2 => Returned a (set_lock None s2)
        | Raised e s2 => Raised e (set_lock None s2)
        | Deadlock s2 => Deadlock s2
        | Waits s2 => Waits s2
        end
    | Raised e s1 => Raised e s1
    | Deadlock s1 => Deadlock s1
    | Waits s1 => Waits s1
    end.

Definition final_state {A} (o : Outcome A) : State :=
  match o with
  | Returned _ s | Raised _ s | Deadlock s | Waits s => s
  end.

Definition returns {A} (o : Outcome A) : bool :=
  match o with Returned _ _ => true | _ => false end.

(** ** Binding the arguments of a call

    [def f(self, p1, ..., pn, **context)] called with positional values and
    keyword arguments: positionals fill the parameters from the left, a
    keyword naming a parameter fills it unless it is already filled
    (TypeError), any other keyword lands in [context], and a parameter left
    unfilled is a TypeError.  There is no [*args], so surplus positionals are
    a TypeError as well. *)
Fixpoint bind_positional (params : list string) (pos : list Json)
  : option (Dict * list string) :=
  match pos, params with
  | [], _ => Some ([], params)
  | _ :: _, [] => None
  | v :: pos', p :: params' =>
      match bind_positional params' pos' with
      | Some (bound, rest) => Some ((p, v) :: bound, rest)
      | None => None
      end
  end.

Definition mem (x : string) (l : list string) : bool :=
  existsb (String.eqb x) l.

Fixpoint bind_keywords (params : list string) (bound : Dict) (context : Dict)
         (kw : Dict) : Exn + (Dict * Dict) :=
  match kw with
  | [] => inr (bound, context)
  | (k, v) :: kw' =>
      if mem k params then
        if dict_has k bound
        then inl (TypeError ("got multiple values for argument " ++ k))
        else bind_keywords params (bound ++ [(k, v)]) context kw'
      else bind_keywords params bound (context ++ [(k, v)]) kw'
  end.

Definition bind_args (params : list string) (pos : list Json) (kw : Dict)
  : Exn + (Dict * Dict) :=
  match bind_positional params pos with
  | None => inl (TypeError "too many positional arguments")
  | Some (bound, _) =>
      match bind_keywords params bound [] kw with
      | inl e => inl e
      | inr (bound', context) =>
          if forallb (fun p => dict_has p bound') params
          then inr (bound', context)
          else inl (TypeError "missing required positional argument")
      end
  end.

(** the value of a bound parameter *)
Definition arg (p : string) (bound : Dict) : Json :=
  match dict_get p bound with Some v => v | None => JNull end.

(** Python truthiness of a value, and [v or d] *)
Definition truthy (v : Json) : bool :=
  match v with
  | JNull => false
  | JBool b => b
  | JInt n => negb (Z.eqb n 0)
  | JStr s => negb (is_empty s)
  | JList l => match l with [] => false | _ => true end
  | JObj d => match d with [] => false | _ => true end
  end.

Definition py_or (v d : Json) : Json := if truthy v then v else d.

(** [not s] for an argument that is a string or [None] *)
Definition falsy (o : option string) : bool :=
  match o with
  | None => true
  | Some s => is_empty s
  end.

Definition text (o : option string) : string :=
  match o with Some s => s | None => "" end.

(** the receiver of a bound method call, as the first positional value *)
Definition self_obj : Json := JNull.

(** * The SDK module: docs/integrations/python/logger.py *)
Module Canonical.

(** [_start_timer]: arm a new [Timer] that fires [flush_interval] from now *)
Definition _start_timer : M unit :=
  modify (fun s => set_timer (Some (clock s + flush_interval s)%Z) s).

(** [__init__]: the three checks, the attributes, the timer, the exit hook *)
Definition init (api_key api_url' project_slug service_name : option string)
           (batch_size flush_interval now : Z) : Exn + State :=
  if falsy api_key then inl (ValueError "DevSmithLogger: api_key is required")
  else if falsy project_slug
  then inl (ValueError "DevSmithLogger: project_slug is required")
  else if falsy service_name
  then inl (ValueError "DevSmithLogger: service_name is required")
  else
    match api_url' with
    | None => inl (AttributeError "'NoneType' object has no attribute 'rstrip'")
    | Some url =>
        let s := mkState (text api_key) (rstrip slash url) (text project_slug)
                         (text service_name) batch_size flush_interval
                         [] None None [] [] now 0 in
        inr (add_atexit (final_state (_start_timer s)))
    end.

Definition make_entry (now level : string) (message : Json) (service : string)
           (context : Dict) : Dict :=
  [("timestamp", JStr (now ++ "Z")%string);
   ("level", JStr (upper level));
   ("message", message);
   ("service", JStr service);
   ("context", JObj context)].

Definition headers (s : State) : list (string * string) :=
  [("Content-Type", "application/json");
   ("Authorization", ("Bearer " ++ api_key s)%string)].

Definition endpoint (s : State) : string :=
  (api_url s ++ "/api/logs/batch")%string.

Definition make_request (s : State) (logs : list Dict) : Request :=
  mkRequest (endpoint s) (headers s) (project_slug s) logs 10.

Definition success (code : Z) : bool := Z.eqb code 200 || Z.eqb code 201.

(** first part of [flush]: under the lock, return on an empty buffer, else
    copy the buffer and clear it *)
Definition flush_begin (t : Tid) : M (option (list Dict)) :=
  with_lock t
    (s <- get ;;
     match buffer s with
     | [] => ret None
     | logs => modify (set_buffer []) ;;; ret (Some logs)
     end).

(** [self.buffer.extend(logs)] under the lock *)
Definition requeue (t : Tid) (logs : list Dict) : M unit :=
  with_lock t (modify (fun s => set_buffer (buffer s ++ logs) s)).

(** second part of [flush]: the POST and what follows from the answer *)
Definition flush_send (t : Tid) (logs : list Dict) (net : Response) : M unit :=
  s <- get ;;
  modify (add_sent (make_request s logs) net) ;;;
  match net with
  | Status code =>
      if success code then ret tt
      else modify (add_diag (FailedToSend code)) ;;; requeue t logs
  | TransportFailure msg =>
      modify (add_diag (NetworkError msg)) ;;; requeue t logs
  | Unexpected msg => raise (OtherError msg)
  end.

Definition flush (t : Tid) (net : Response) : M unit :=
  r <- flush_begin t ;;
  match r with
  | None => ret tt
  | Some logs => flush_send t logs net
  end.

(** [log(level, message, **context)] once its arguments are bound *)
Definition log (t : Tid) (level message : Json) (context : Dict)
           (now : string) (net : Response) : M unit :=
  match level with
  | JStr l =>
      s0 <- get ;;
      let entry := make_entry now l message (service_name s0) context in
      with_lock t
        (modify (fun s => set_buffer (buffer s ++ [entry]) s) ;;;
         s <- get ;;
         if (batch_size s <=? Z.of_nat (length (buffer s)))%Z
         then flush t net
         else ret tt)
  | _ => raise (AttributeError "object has no attribute 'upper'")
  end.

(** the callback of the timer, run by the timer's own thread *)
Definition flush_periodically (t : Tid) (net : Response) : M unit :=
  with_lock t
    (s <- get ;;
     match buffer s with
     | [] => ret tt
     | _ => flush t net
     end) ;;;
  _start_timer.

(** the armed timer reaches its deadline and runs its callback *)
Definition timer_fires (t : Tid) (net : Response) : M unit :=
  fun s =>
    match timer s with
    | None => Returned tt s
    | Some d =>
        flush_periodically t net
          (set_timer None (set_clock (Z.max (clock s) d) s))
    end.

(** a call of [logger.log] with positional values [pos] and keywords [kw] *)
Definition call_log (t : Tid) (pos : list Json) (kw : Dict)
           (now : string) (net : Response) : M unit :=
  match bind_args ["self"; "level"; "message"] (self_obj :: pos) kw with
  | inl e => raise e
  | inr (bound, context) =>
      log t (arg "level" bound) (arg "message" bound) context now net
  end.

(** [debug], [info], [warn], [error]: [self.log(LEVEL, message, **context)] *)
Definition convenience (LEVEL : string) (t : Tid) (pos : list Json)
           (kw : Dict) (now : string) (net : Response) : M unit :=
  match bind_args ["self"; "message"] (self_obj :: pos) kw with
  | inl e => raise e
  | inr (bound, context) =>
      call_log t [JStr LEVEL; arg "message" bound] context now net
  end.

Definition debug := convenience "DEBUG".
Definition info := convenience "INFO".
Definition warn := convenience "WARN".
Definition error := convenience "ERROR".

(** the attributes set by [__init__] *)
Definition data_attributes : list string :=
  ["api_key"; "api_url"; "project_slug"; "service_name"; "batch_size";
   "flush_interval"; "buffer"; "lock"; "timer"].

(** calling the attribute [name] of a logger: the methods the class
    defines; any other name is a data attribute (not callable) or does not
    exist.  The attributes every Python object inherits are left out. *)
Definition invoke (name : string) (t : Tid) (pos : list Json) (kw : Dict)
           (now : string) (net : Response) : M unit :=
  if String.eqb name "log" then call_log t pos kw now net
  else if String.eqb name "debug" then debug t pos kw now net
  else if String.eqb name "info" then info t pos kw now net
  else if String.eqb name "warn" then warn t pos kw now net
  else if String.eqb name "error" then error t pos kw now net
  else if String.eqb name "flush" then
    match bind_args ["self"] (self_obj :: pos) kw with
    | inl e => raise e
    | inr (_, []) => flush t net
    | inr (_, _ :: _) => raise (TypeError "unexpected keyword argument")
    end
  else if String.eqb name "_start_timer" then
    match bind_args ["self"] (self_obj :: pos) kw with
    | inl e => raise e
    | inr (_, []) => _start_timer
    | inr (_, _ :: _) => raise (TypeError "unexpected keyword argument")
    end
  else if mem name data_attributes
  then raise (TypeError "object is not callable")
  else raise (AttributeError
                ("'DevSmithLogger' object has no attribute '" ++ name ++ "'")).

End Canonical.

(** * The copy inlined in the sample application:
      docs/integration-examples/tests/sample-apps/flask-app/app.py *)
Module SampleApp.

(** [__init__]: stores its arguments (strings read from the environment by
    the application); no check, no timer, no exit hook.  [batch_size] holds
    the attribute the copy calls [buffer_size], [timer] its [flush_timer]. *)
Definition init (api_url' api_key' project_slug' service_name' : string)
           (buffer_size flush_interval now : Z) : State :=
  mkState api_key' api_url' project_slug' service_name' buffer_size
          flush_interval [] None None [] [] now 0.

(** [_schedule_flush], run at time [clk]: cancel the pending timer and start
    a new one, which is due [flush_interval] after it was started *)
Definition _schedule_flush (clk : Z) : M unit :=
  modify (fun s => set_timer (Some (clk + flush_interval s)%Z) s).

Definition make_request (s : State) (batch : list Dict) : Request :=
  mkRequest (api_url s)
            [("Content-Type", "application/json");
             ("Authorization", ("Bearer " ++ api_key s)%string)]
            (project_slug s) batch 5.

(** [urlopen] returns for a 2xx answer and raises [HTTPError] otherwise *)
Definition urlopen_returns (code : Z) : bool :=
  (200 <=? code)%Z && (code <? 300)%Z.

Definition flush_begin (t : Tid) : M (option (list Dict)) :=
  with_lock t
    (s <- get ;;
     match buffer s with
     | [] => ret None
     | batch => modify (set_buffer []) ;;; ret (Some batch)
     end).

(** the [try] block: every exception is caught and printed *)
Definition flush_send (batch : list Dict) (net : Response) : M unit :=
  s <- get ;;
  modify (add_sent (make_request s batch) net) ;;;
  match net with
  | Status code =>
      if urlopen_returns code then ret tt
      else modify (add_diag (FlushError "HTTP Error"))
  | TransportFailure msg => modify (add_diag (FlushError msg))
  | Unexpected msg => modify (add_diag (FlushError msg))
  end.

Definition flush (t : Tid) (net : Response) : M unit :=
  r <- flush_begin t ;;
  match r with
  | None => ret tt
  | Some batch => flush_send batch net
  end.

Definition make_entry (now : string) (level message : Json) (service : string)
           (context tags : Json) : Dict :=
  [("timestamp", JStr (now ++ "Z")%string);
   ("level", level);
   ("message", message);
   ("service", JStr service);
   ("context", py_or context (JObj []));
   ("tags", py_or tags (JList []))].

(** [_log(level, message, context=None, tags=None)]; [JNull] is [None];
    [now] is the text of [datetime.utcnow()] and [clk] the time on the clock
    of the timers when the call runs *)
Definition _log (t : Tid) (level message context tags : Json)
           (now : string) (clk : Z) (net : Response) : M unit :=
  s0 <- get ;;
  let log_entry := make_entry now level message (service_name s0) context tags in
  with_lock t
    (modify (fun s => set_buffer (buffer s ++ [log_entry]) s) ;;;
     s <- get ;;
     if (batch_size s <=? Z.of_nat (length (buffer s)))%Z
     then flush t net
     else _schedule_flush clk).

Definition debug (t : Tid) (message context tags : Json) :=
  _log t (JStr "DEBUG") message context tags.
Definition info (t : Tid) (message context tags : Json) :=
  _log t (JStr "INFO") message context tags.
Definition warn (t : Tid) (message context tags : Json) :=
  _log t (JStr "WARN") message context tags.
Definition error (t : Tid) (message context tags : Json) :=
  _log t (JStr "ERROR") message context tags.

(** the pending timer reaches its deadline: its thread runs [self.flush] *)
Definition timer_fires (t : Tid) (net : Response) : M unit :=
  fun s =>
    match timer s with
    | None => Returned tt s
    | Some d => flush t net (set_timer None (set_clock (Z.max (clock s) d) s))
    end.

End SampleApp.

(** * Executions of the SDK module

    What threads can do to one logger, one atomic step at a time: a method
    call, a firing of the timer, and the two halves of [flush] taken apart
    so that other threads can run while a request is in flight.  A thread
    that is stuck leaves the state as it is and the others go on. *)
Inductive step : State -> State -> Prop :=
| step_call (name : string) (t : Tid) (pos : list Json) (kw : Dict)
            (now : string) (net : Response) (s : State) :
    step s (final_state (Canonical.invoke name t pos kw now net s))
| step_timer (t : Tid) (net : Response) (s : State) :
    step s (final_state (Canonical.timer_fires t net s))
| step_flush_begin (t : Tid) (s : State) :
    step s (final_state (Canonical.flush_begin t s))
| step_flush_send (t : Tid) (logs : list Dict) (net : Response) (s : State) :
    step s (final_state (Canonical.flush_send t logs net s)).

Inductive reachable (s0 : State) : State -> Prop :=
| reach_init : reachable s0 s0
| reach_step (s s' : State) : reachable s0 s -> step s s' -> reachable s0 s'.

(** every request issued so far went to [u ++ "/api/logs/batch"], and the
    logger still points at [u] *)
Definition at_endpoint (u : string) (s : State) : Prop :=
  api_url s = u /\
  Forall (fun ra => req_url (fst ra) = (u ++ "/api/logs/batch")%string) (sent s).

(** a computation that maintains [at_endpoint], however it ends *)
Definition keeps (u : string) {A : Type} (m : M A) : Prop :=
  forall s, at_endpoint u s -> at_endpoint u (final_state (m s)).


(** * Sequences of calls on the SDK module *)

(** one call of [log] with a string level: the calling thread, the level,
    the message, the keyword context and the time of the call *)
Definition LogCall : Type := (Tid * string * Json * Dict * string)%type.

Definition entry_of (service : string) (c : LogCall) : Dict :=
  let '(_, l, m, ctx, now) := c in Canonical.make_entry now l m service ctx.

(** the calls one after the other *)
Fixpoint log_each (calls : list LogCall) (net : Response) : M unit :=
  match calls with
  | [] => ret tt
  | (t, l, m, ctx, now) :: rest =>
      Canonical.log t (JStr l) m ctx now net ;;; log_each rest net
  end.


(** executions made of whole method calls and timer firings *)
Inductive api_step : State -> State -> Prop :=
| api_call (name : string) (t : Tid) (pos : list Json) (kw : Dict)
           (now : string) (net : Response) (s : State) :
    api_step s (final_state (Canonical.invoke name t pos kw now net s))
| api_timer (t : Tid) (net : Response) (s : State) :
    api_step s (final_state (Canonical.timer_fires t net s)).

Inductive api_reachable (s0 : State) : State -> Prop :=
| api_reach_init : api_reachable s0 s0
| api_reach_step (s s' : State) :
    api_reachable s0 s -> api_step s s' -> api_reachable s0 s'.

(** the configuration of the logger [s] is that of [s0] *)
Definition same_config (s0 s : State) : Prop :=
  api_key s = api_key s0 /\ api_url s = api_url s0 /\
  project_slug s = project_slug s0 /\ service_name s = service_name s0 /\
  batch_size s = batch_size s0 /\ flush_interval s = flush_interval s0.

(** a request built by the logger [s0] for a batch that is not empty *)
Definition well_formed_request (s0 : State) (r : Request) : Prop :=
  r = Canonical.make_request s0 (req_logs r) /\ req_logs r <> [].

Definition sound (s0 s : State) : Prop :=
  same_config s0 s /\
  Forall (fun ra => well_formed_request s0 (fst ra)) (sent s).

(** a computation that maintains an invariant, however it ends *)
Definition preserves (I : State -> Prop) {A : Type} (m : M A) : Prop :=
  forall s, I s -> I (final_state (m s)).

(** the lock before and after a computation run by thread [t] that starts
    with the lock in state [l]: back in [l] when it returns or raises, held
    by [t] when [t] is stuck, and [t] never waits for another thread *)
Definition lock_ok (l : option Tid) (t : Tid) {A : Type} (m : M A) : Prop :=
  forall s, lock s = l ->
    match m s with
    | Returned _ s' | Raised _ s' => lock s' = l
    | Deadlock s' => lock s' = Some t
    | Waits _ => False
    end.

(** * Sequences of calls on the sample application's copy *)

(** one call of [_log]: thread, level, message, context, tags, the text of
    the time and the time on the clock of the timers *)
Definition SampleCall : Type :=
  (Tid * Json * Json * Json * Json * string * Z)%type.



Fixpoint sample_log_each (calls : list SampleCall) (net : Response) : M unit :=
  match calls with
  | [] => ret tt
  | (t, l, m, ctx, tags, now, clk) :: rest =>
      SampleApp._log t l m ctx tags now clk net ;;; sample_log_each rest net
  end.

(** * The Flask extension: docs/integration-examples/python/flask_integration.py *)

(** [str.lower()] on the ASCII letters; bytes outside A-Z are kept. *)
Definition lower_ascii (c : ascii) : ascii :=
  let n := nat_of_ascii c in
  if (65 <=? n)%nat && (n <=? 90)%nat then ascii_of_nat (n + 32) else c.

Fixpoint lower (s : string) : string :=
  match s with
  | EmptyString => EmptyString
  | String c s' => String (lower_ascii c) (lower s')
  end.

(** [str(n)] and [f'{n}'] for an integer *)
Definition str_int (n : Z) : string := NilZero.string_of_int (Z.to_int n).

(** [d[k] = v] on an ordered dictionary: an existing key keeps its place *)
Fixpoint dict_set {V : Type} (k : string) (v : V) (d : list (string * V))
  : list (string * V) :=
  match d with
  | [] => [(k, v)]
  | (k', v') :: d' =>
      if String.eqb k k' then (k', v) :: d' else (k', v') :: dict_set k v d'
  end.

(** a dictionary from strings to strings, such as [dict(request.headers)] *)
Definition Headers := list (string * string).

Definition json_of_headers (h : Headers) : Json :=
  JObj (map (fun kv => (fst kv, JStr (snd kv))) h).

(** what the code reads from Flask's [request]: [method], [path],
    [endpoint] (as text), [dict(request.args)], [remote_addr],
    [headers.get('User-Agent')], [dict(request.headers)] and [data] *)
Record FlaskRequest : Type := mkFlaskRequest {
  rq_method : string;
  rq_path : string;
  rq_endpoint : string;
  rq_args : Headers;
  rq_remote_addr : Json;
  rq_user_agent : Json;
  rq_headers : Headers;
  rq_data : string
}.

(** what the code reads from a response: [status_code],
    [dict(response.headers)] and [data] *)
Record FlaskResponse : Type := mkFlaskResponse {
  rs_status_code : Z;
  rs_headers : Headers;
  rs_data : string
}.

Module FlaskIntegration.

(** the attributes of a [DevSmithFlask] besides its logger *)
Record Ext : Type := mkExt {
  log_body : bool;
  skip_paths : list string;
  redact_headers : list string
}.

(** the values set by [__init__] *)
Definition default_ext : Ext :=
  mkExt false ["/health"; "/metrics"] ["authorization"; "cookie"; "x-api-key"].

(** [_redact_headers] *)
Definition _redact_headers (ext : Ext) (headers : Headers) : Headers :=
  fold_left
    (fun redacted kv =>
       if mem (lower (fst kv)) (redact_headers ext)
       then dict_set (fst kv) "[REDACTED]" redacted
       else dict_set (fst kv) (snd kv) redacted)
    headers [].

Definition level_of_status (status : Z) : string :=
  if (500 <=? status)%Z then "error"
  else if (400 <=? status)%Z then "warn"
  else "info".

Definition base_context (ext : Ext) (rq : FlaskRequest) (rs : FlaskResponse)
           (duration_ms : Z) : Dict :=
  [("method", JStr (rq_method rq));
   ("path", JStr (rq_path rq));
   ("query", json_of_headers (rq_args rq));
   ("ip", rq_remote_addr rq);
   ("user_agent", rq_user_agent rq);
   ("status_code", JInt (rs_status_code rs));
   ("duration", JStr (str_int duration_ms ++ "ms")%string);
   ("request_headers", json_of_headers (_redact_headers ext (rq_headers rq)));
   ("response_headers", json_of_headers (_redact_headers ext (rs_headers rs)))].

(** the text made of the characters [chars], each given by the bytes that
    encode it *)
Definition text_of (chars : list string) : string := String.concat "" chars.

(** [context[key] = data.decode('utf-8')[:1000]] when [data] is not empty;
    [decode] is the decoder: it raises on bytes that are not UTF-8 and
    otherwise returns the characters of the text, one item per character
    (the bytes that encode it), so that the slice counts characters *)
Definition add_body (decode : string -> Exn + list string) (key data : string)
           (context : Dict) : Exn + Dict :=
  if is_empty data then inr context
  else
    match decode data with
    | inl e => inl e
    | inr chars => inr (dict_set key (JStr (text_of (firstn 1000 chars))) context)
    end.

Definition full_context (decode : string -> Exn + list string) (ext : Ext)
           (rq : FlaskRequest) (rs : FlaskResponse) (duration_ms : Z)
  : Exn + Dict :=
  let context := base_context ext rq rs duration_ms in
  if log_body ext then
    match add_body decode "request_body" (rq_data rq) context with
    | inl e => inl e
    | inr context' => add_body decode "response_body" (rs_data rs) context'
    end
  else inr context.

Definition request_line (rq : FlaskRequest) (rs : FlaskResponse)
           (duration_ms : Z) : string :=
  (rq_method rq ++ " " ++ rq_path rq ++ " " ++ str_int (rs_status_code rs)
   ++ " " ++ str_int duration_ms ++ "ms")%string.

(** [_after_request]; [duration_ms] is the time measured since
    [_before_request] *)
Definition _after_request (decode : string -> Exn + list string) (ext : Ext)
           (rq : FlaskRequest) (rs : FlaskResponse) (duration_ms : Z)
           (t : Tid) (now : string) (net : Response) : M FlaskResponse :=
  if mem (rq_path rq) (skip_paths ext) then ret rs
  else
    let level := level_of_status (rs_status_code rs) in
    match full_context decode ext rq rs duration_ms with
    | inl e => raise e
    | inr context =>
        let message := JStr (request_line rq rs duration_ms) in
        (if String.eqb level "error"
         then Canonical.error t [message] context now net
         else if String.eqb level "warn"
              then Canonical.warn t [message] context now net
              else Canonical.info t [message] context now net) ;;;
        ret rs
    end.

(** [_teardown_request]; [str_of] is [str(exception)], [traceback] is what
    [traceback.format_exc()] returns *)
Definition _teardown_request (exception : option Exn) (str_of : Exn -> string)
           (traceback : string) (rq : FlaskRequest)
           (t : Tid) (now : string) (net : Response) : M unit :=
  match exception with
  | None => ret tt
  | Some e =>
      Canonical.error t [JStr "Unhandled exception"]
        [("method", JStr (rq_method rq));
         ("path", JStr (rq_path rq));
         ("exception", JStr (str_of e));
         ("traceback", JStr traceback)] now net
  end.

(** the [except Exception] branch of [log_route]: log, then re-raise *)
Definition route_failed (e : Exn) (rq : FlaskRequest) (duration_ms : Z)
           (str_of : Exn -> string) (traceback : string)
           (t : Tid) (now : string) (net : Response) : M Json :=
  Canonical.error t [JStr ("Route " ++ rq_endpoint rq ++ " failed")%string]
    [("method", JStr (rq_method rq));
     ("path", JStr (rq_path rq));
     ("duration", JStr (str_int duration_ms ++ "ms")%string);
     ("error", JStr (str_of e));
     ("traceback", JStr traceback)] now net ;;;
  raise e.

(** the function that [log_route(logger, level)] puts around a route [f];
    [d_ok] and [d_err] are the durations measured on the two paths, [now]
    and [now'] the times of the two possible log calls *)
Definition log_route (level : string) (f : M Json) (rq : FlaskRequest)
           (d_ok d_err : Z) (str_of : Exn -> string) (traceback : string)
           (t : Tid) (now now' : string) (net : Response) : M Json :=
  fun s =>
    match f s with
    | Returned result s1 =>
        match Canonical.invoke level t
                [JStr ("Route " ++ rq_endpoint rq ++ " completed")%string]
                [("method", JStr (rq_method rq));
                 ("path", JStr (rq_path rq));
                 ("duration", JStr (str_int d_ok ++ "ms")%string)]
                now net s1 with
        | Returned _ s2 => Returned result s2
        | Raised e s2 => route_failed e rq d_err str_of traceback t now' net s2
        | Deadlock s2 => Deadlock s2
        | Waits s2 => Waits s2
        end
    | Raised e s1 => route_failed e rq d_err str_of traceback t now' net s1
    | Deadlock s1 => Deadlock s1
    | Waits s1 => Waits s1
    end.

End FlaskIntegration.

(** * The extension inlined in the sample application (app.py) *)
Module AppExtension.

(** [_before_request] of [DevSmithLogging] *)
Definition _before_request (skip_paths : list string) (rq : FlaskRequest)
           (t : Tid) (now : string) (clk : Z) (net : Response) : M unit :=
  if mem (rq_path rq) skip_paths then ret tt
  else
    SampleApp.info t (JStr "Incoming request")
      (JObj [("method", JStr (rq_method rq));
             ("path", JStr (rq_path rq));
             ("headers", json_of_headers (rq_headers rq));
             ("args", json_of_headers (rq_args rq))])
      (JList [JStr "request"]) now clk net.

(** [_after_request] of [DevSmithLogging] *)
Definition _after_request (skip_paths : list string) (rq : FlaskRequest)
           (rs : FlaskResponse) (duration : Z)
           (t : Tid) (now : string) (clk : Z) (net : Response)
  : M FlaskResponse :=
  if mem (rq_path rq) skip_paths then ret rs
  else
    SampleApp.info t (JStr "Request completed")
      (JObj [("method", JStr (rq_method rq));
             ("path", JStr (rq_path rq));
             ("status_code", JInt (rs_status_code rs));
             ("duration_ms", JInt duration)])
      (JList [JStr "response"]) now clk net ;;;
    ret rs.

(** the function that [log_route(context, tags)] puts around a route [f]
    whose name is [name] *)
Definition log_route (context tags : Json) (name : string) (f : M Json)
           (t : Tid) (now : string) (clk : Z) (net : Response) : M Json :=
  SampleApp.debug t (JStr ("Executing " ++ name)%string) context
    (py_or tags (JList [])) now clk net ;;;
  f.

End AppExtension.

(** what [_redact_headers] makes of one header *)
Definition redact_one (ext : FlaskIntegration.Ext) (kv : string * string)
  : string * string :=
  (fst kv, if mem (lower (fst kv)) (FlaskIntegration.redact_headers ext)
           then "[REDACTED]" else snd kv).

(** the level that ends up in the entry logged by [_after_request] *)
Definition entry_level_of_status (status : Z) : string :=
  if (500 <=? status)%Z then "ERROR"
  else if (400 <=? status)%Z then "WARN"
  else "INFO".

(** the names a logger of logger.py can be called under *)
Definition logger_methods : list string :=
  ["log"; "debug"; "info"; "warn"; "error"; "flush"; "_start_timer"].

(** the four convenience methods *)
Definition level_methods : list string := ["debug"; "info"; "warn"; "error"].

(** * The Doctor service: packages/devsmith-doctor/backend/main.py

    The handlers are modelled over what they get from the modules
    [doctor.analyzer], [doctor.fixer], [doctor.integrations] and
    [doctor.logger], whose code is not part of these sources: each of their
    methods is a parameter, and so is [str(e)] of an exception. *)
Module Doctor.

(** what a handler raises *)
Inductive Failure : Type :=
| HTTPException (status : Z) (detail : string)
| Error (e : Exn).

(** of a fix object, the handlers only read [commands] *)
Record Fix : Type := mkFix {
  fix_name : string;
  commands : list string
}.

Record FixRequest : Type := mkFixRequest {
  fix_id : string;
  auto_apply : bool;
  dry_run : bool
}.

Record FixResponse : Type := mkFixResponse {
  success : bool;
  message : string;
  output : option string;
  errors : option (list string)
}.

(** what the service did to the system: the fixes handed to
    [fix_executor.execute_fix] and the calls of
    [doctor_logger.log_fix_applied], oldest first *)
Record Sys : Type := mkSys {
  executed : list Fix;
  applied_log : list (Fix * bool)
}.

Definition newline : string := String (ascii_of_nat 10) EmptyString.

Record BatchItem : Type := mkBatchItem {
  item_fix_id : string;
  item_success : bool;
  item_message : string
}.

Record BatchResult : Type := mkBatchResult {
  total : nat;
  successful : nat;
  failed : nat;
  results : list BatchItem
}.

Section Handlers.

(** [fix_executor.get_fix_by_id]: raises, or returns a fix object or a falsy value *)
Variable get_fix_by_id : string -> Exn + option Fix.
(** [fix_executor.execute_fix]: raises, or returns [(success, output, errors)] *)
Variable execute_fix : Fix -> Exn + (bool * option string * option (list string)).
(** [doctor_logger.log_fix_applied]: raises or returns *)
Variable log_fix_applied : Fix -> bool -> option Exn.
(** [str(e)] *)
Variable str_of : Failure -> string.

(** the body of the [try] of [apply_fix] *)
Definition apply_fix_body (request : FixRequest) (sys : Sys)
  : (Failure + FixResponse) * Sys :=
  match get_fix_by_id (fix_id request) with
  | inl e => (inl (Error e), sys)
  | inr None =>
      (inl (HTTPException 404 ("Fix " ++ fix_id request ++ " not found")), sys)
  | inr (Some fx) =>
      if dry_run request then
        (inr (mkFixResponse true "Dry run - no commands executed"
                (Some (String.concat newline (commands fx))) None), sys)
      else if auto_apply request then
        let sys1 := mkSys (executed sys ++ [fx]) (applied_log sys) in
        match execute_fix fx with
        | inl e => (inl (Error e), sys1)
        | inr (ok, out, errs) =>
            let sys2 := mkSys (executed sys1) (applied_log sys1 ++ [(fx, ok)]) in
            match log_fix_applied fx ok with
            | Some e => (inl (Error e), sys2)
            | None =>
                (inr (mkFixResponse ok
                        (if ok then "Fix applied successfully" else "Fix failed")
                        out errs), sys2)
            end
        end
      else
        (inr (mkFixResponse false "auto_apply must be true to execute fix"
                None None), sys)
  end.

(** [apply_fix]: whatever the body raises becomes an [HTTPException] 500
    whose detail is the text of the exception *)
Definition apply_fix (request : FixRequest) (sys : Sys)
  : (Failure + FixResponse) * Sys :=
  match apply_fix_body request sys with
  | (inl e, sys') => (inl (HTTPException 500 (str_of e)), sys')
  | (inr r, sys') => (inr r, sys')
  end.

(** the loop of [apply_fixes_batch] *)
Fixpoint batch_loop (fix_ids : list string) (auto : bool) (sys : Sys)
  : list BatchItem * Sys :=
  match fix_ids with
  | [] => ([], sys)
  | id :: rest =>
      let '(r, sys') := apply_fix (mkFixRequest id auto false) sys in
      let item :=
        match r with
        | inr result => mkBatchItem id (success result) (message result)
        | inl e => mkBatchItem id false (str_of e)
        end in
      let '(items, sys'') := batch_loop rest auto sys' in
      (item :: items, sys'')
  end.

Definition count (f : BatchItem -> bool) (l : list BatchItem) : nat :=
  length (filter f l).

Definition apply_fixes_batch (fix_ids : list string) (auto : bool) (sys : Sys)
  : BatchResult * Sys :=
  let '(items, sys') := batch_loop fix_ids auto sys in
  (mkBatchResult (length fix_ids)
                 (count item_success items)
                 (count (fun r => negb (item_success r)) items)
                 items, sys').

End Handlers.

(** [d.get(k, default)]: only a dictionary has [get] *)
Definition py_get (d : Json) (k : string) (default : Json) : Exn + Json :=
  match d with
  | JObj fields =>
      inr (match dict_get k fields with Some v => v | None => default end)
  | _ => inl (AttributeError "object has no attribute 'get'")
  end.

(** [len(x)] *)
Definition py_len (x : Json) : Exn + nat :=
  match x with
  | JList l => inr (length l)
  | JObj d => inr (length d)
  | JStr s => inr (String.length s)
  | _ => inl (TypeError "object has no len()")
  end.

(** the items a [for] loop over [x] visits *)
Definition py_iter (x : Json) : Exn + list Json :=
  match x with
  | JList l => inr l
  | JObj d => inr (map (fun kv => JStr (fst kv)) d)
  | JStr s => inr (map (fun c => JStr (String c EmptyString)) (list_ascii_of_string s))
  | _ => inl (TypeError "object is not iterable")
  end.

Definition json_eqb_str (v : Json) (s : string) : bool :=
  match v with JStr s' => String.eqb s' s | _ => false end.

(** [sum(1 for i in items if i.get("severity") == "high")] *)
Fixpoint count_high (items : list Json) : Exn + nat :=
  match items with
  | [] => inr O
  | i :: rest =>
      match py_get i "severity" JNull with
      | inl e => inl e
      | inr v =>
          match count_high rest with
          | inl e => inl e
          | inr n => inr (if json_eqb_str v "high" then S n else n)
          end
      end
  end.

(** the body of the [try] of [get_status]; the argument is what
    [analyzer.read_validation_status()] does *)
Definition get_status_body (read : Exn + Json) : Exn + Dict :=
  match read with
  | inl e => inl e
  | inr validation_data =>
      if negb (truthy validation_data) then
        inr [("status", JStr "unknown");
             ("message", JStr "No validation data available")]
      else
        match py_get validation_data "validation" (JObj []) with
        | inl e => inl e
        | inr validation =>
        match py_get validation "status" (JStr "unknown") with
        | inl e => inl e
        | inr status =>
        match py_get validation "issues" (JList []) with
        | inl e => inl e
        | inr issues =>
        match py_len issues with
        | inl e => inl e
        | inr n =>
        match py_iter issues with
        | inl e => inl e
        | inr items =>
        match count_high items with
        | inl e => inl e
        | inr high =>
        match py_get validation "timestamp" JNull with
        | inl e => inl e
        | inr ts =>
        match py_get validation "services_checked" (JInt 0) with
        | inl e => inl e
        | inr checked =>
            inr [("status", status);
                 ("total_issues", JInt (Z.of_nat n));
                 ("high_priority_issues", JInt (Z.of_nat high));
                 ("last_validation", ts);
                 ("services_checked", checked)]
        end end end end end end end end
  end.

Definition get_status (str_of : Failure -> string) (read : Exn + Json)
  : Failure + Dict :=
  match get_status_body read with
  | inl e => inl (HTTPException 500 (str_of (Error e)))
  | inr d => inr d
  end.

End Doctor.

(** * A route of the sample application (app.py) *)
Module SampleRoutes.

(** [d.get(k)] on a dictionary; [JNull] is [None] *)
Definition get (k : string) (d : Dict) : Json :=
  match dict_get k d with Some v => v | None => JNull end.

(** [{'id': random_id, **user_data, 'created_at': created + 'Z'}] *)
Definition new_user (random_id : Z) (user_data : Dict) (created : string) : Dict :=
  dict_set "created_at" (JStr (created ++ "Z")%string)
    (fold_left (fun d kv => dict_set (fst kv) (snd kv) d) user_data
               [("id", JInt random_id)]).

(** [create_user], without its decorator: [payload] is what
    [request.get_json()] returns, [random_id] what [random.randint] draws,
    [created] the time read for [created_at], and [now1], [clk1] and
    [now2], [clk2] the times of the first and of the second log call; the
    result is the JSON body and the status *)
Definition create_user (payload : Json) (random_id : Z) (created : string)
           (t : Tid) (now1 : string) (clk1 : Z) (now2 : string) (clk2 : Z)
           (net : Response) : M (Json * Z) :=
  match py_or payload (JObj []) with
  | JObj user_data =>
      SampleApp.info t (JStr "Creating new user")
        (JObj [("username", get "username" user_data);
               ("email", get "email" user_data)])
        (JList [JStr "users"; JStr "create"]) now1 clk1 net ;;;
      if negb (truthy (get "username" user_data)) then
        SampleApp.warn t (JStr "User creation failed - missing username")
          (JObj [("provided_fields", JList (map JStr (dict_keys user_data)))])
          (JList [JStr "validation"; JStr "error"]) now2 clk2 net ;;;
        ret (JObj [("error", JStr "Username required")], 400%Z)
      else
        let user := new_user random_id user_data created in
        SampleApp.info t (JStr "User created successfully")
          (JObj [("user_id", get "id" user);
                 ("username", get "username" user)])
          (JList [JStr "users"; JStr "success"]) now2 clk2 net ;;;
        ret (JObj [("user", JObj user)], 201%Z)
  | _ => raise (AttributeError "object has no attribute 'get'")
  end.

End SampleRoutes.

(** * The Doctor service, continued: [diagnose] *)
Module Diagnosis.

Record DiagnosisResponse : Type := mkDiagnosisResponse {
  status : string;
  total_issues : nat;
  high_priority : nat;
  issues_with_fixes : list (Json * Json);
  timestamp : string
}.

Section Diagnose.

(** the issue and fix objects of [doctor.analyzer] and [doctor.fixer] *)
Variables Issue FixObj : Type.
(** [issue.severity], [issue.dict()], [fix.dict()] *)
Variable severity : Issue -> string.
Variable issue_dict : Issue -> Json.
Variable fix_dict : FixObj -> Json.
(** [fix.tool_integrations = tools] *)
Variable set_tools : FixObj -> list string -> FixObj.
(** [analyzer.parse_issues], [fix_generator.generate_fix],
    [integrations.suggest_tools], [doctor_logger.log_diagnosis],
    [analyzer.get_timestamp]: each raises or returns *)
Variable parse_issues : Json -> Exn + list Issue.
Variable generate_fix : Issue -> Exn + FixObj.
Variable suggest_tools : Issue -> Exn + list string.
Variable log_diagnosis : nat -> nat -> option Exn.
Variable get_timestamp : Exn + string.
Variable str_of : Doctor.Failure -> string.

(** the [for issue in issues] loop: the pairs collected and the number of
    issues of high severity *)
Fixpoint each_issue (issues : list Issue) (acc : list (Json * Json))
         (high : nat) : Exn + (list (Json * Json) * nat) :=
  match issues with
  | [] => inr (acc, high)
  | issue :: rest =>
      let high' := if String.eqb (severity issue) "high" then S high else high in
      match generate_fix issue with
      | inl e => inl e
      | inr fx =>
          match suggest_tools issue with
          | inl e => inl e
          | inr tools =>
              let fx' := match tools with [] => fx | _ => set_tools fx tools end in
              each_issue rest (acc ++ [(issue_dict issue, fix_dict fx')]) high'
          end
      end
  end.

(** the body of the [try] of [diagnose]; [read] is what
    [analyzer.read_validation_status()] does *)
Definition diagnose_body (read : Exn + Json)
  : Doctor.Failure + DiagnosisResponse :=
  match read with
  | inl e => inl (Doctor.Error e)
  | inr validation_data =>
      if negb (truthy validation_data) then
        inl (Doctor.HTTPException 404
               "Validation file not found. Run docker-validate.sh first.")
      else
        match parse_issues validation_data with
        | inl e => inl (Doctor.Error e)
        | inr [] =>
            match get_timestamp with
            | inl e => inl (Doctor.Error e)
            | inr ts => inr (mkDiagnosisResponse "healthy" 0 0 [] ts)
            end
        | inr issues =>
            match each_issue issues [] 0 with
            | inl e => inl (Doctor.Error e)
            | inr (items, high) =>
                match log_diagnosis (length issues) high with
                | Some e => inl (Doctor.Error e)
                | None =>
                    match get_timestamp with
                    | inl e => inl (Doctor.Error e)
                    | inr ts =>
                        inr (mkDiagnosisResponse "issues_found" (length issues)
                                                 high items ts)
                    end
                end
            end
        end
  end.

Definition diagnose (read : Exn + Json) : Doctor.Failure + DiagnosisResponse :=
  match diagnose_body read with
  | inl e => inl (Doctor.HTTPException 500 (str_of e))
  | inr r => inr r
  end.

End Diagnose.

End Diagnosis.

(** a decoder for data made of ASCII bytes: every byte is one character *)
Definition ascii_chars (data : string) : Exn + list string :=
  inr (map (fun c => String c EmptyString) (list_ascii_of_string data)).

(** * Properties *)

(** a failed delivery, as [flush] of the SDK module classifies the answer *)
Definition failure (net : Response) : bool :=
  match net with
  | Status code => negb (Canonical.success code)
  | TransportFailure _ => true
  | Unexpected _ => false
  end.

Definition delivered (net : Response) : bool :=
  match net with
  | Status code => Canonical.success code
  | _ => false
  end.

(** a logger built by the SDK constructor, for the examples *)
Definition example_logger (batch : Z) : State :=
  match Canonical.init (Some "key") (Some "http://localhost:3000/")
                       (Some "my-project") (Some "api-server") batch 5 0 with
  | inr s => s
  | inl _ => mkState "" "" "" "" 0 0 [] None None [] [] 0 0
  end.

(** * Accounting for entries *)

(** the entries of the requests that were answered with status 200 or 201,
    oldest first *)
Definition delivered_logs (s : State) : list Dict :=
  flat_map (fun ra => if delivered (snd ra) then req_logs (fst ra) else [])
           (sent s).

(** everything the logger has taken and not lost: what was acknowledged
    with 200 or 201, followed by what is still in the buffer *)
Definition history (s : State) : list Dict := delivered_logs s ++ buffer s.

(** an answer of the network to a POST that [flush] handles: a status or a
    [RequestException] *)
Definition handled (net : Response) : bool :=
  match net with Unexpected _ => false | _ => true end.

(** a method call or a timer firing during which the POST, if there is
    one, is answered or fails with a [RequestException] *)
Inductive calm_step : State -> State -> Prop :=
| calm_call (name : string) (t : Tid) (pos : list Json) (kw : Dict)
            (now : string) (net : Response) (s : State) :
    handled net = true ->
    calm_step s (final_state (Canonical.invoke name t pos kw now net s))
| calm_timer (t : Tid) (net : Response) (s : State) :
    handled net = true ->
    calm_step s (final_state (Canonical.timer_fires t net s)).

Inductive calm_reachable (s0 : State) : State -> Prop :=
| calm_init : calm_reachable s0 s0
| calm_next (s s' : State) :
    calm_reachable s0 s -> calm_step s s' -> calm_reachable s0 s'.

(** [l] continued by at most one more entry *)
Definition grows_by_one (l l' : list Dict) : Prop :=
  l' = l \/ exists e, l' = l ++ [e].

Ltac unfold_py :=
  unfold Canonical.log, Canonical.flush, Canonical.flush_begin,
    Canonical.flush_send, Canonical.requeue, Canonical.flush_periodically,
    Canonical._start_timer, SampleApp._log, SampleApp.flush,
    SampleApp.flush_begin, SampleApp.flush_send, SampleApp._schedule_flush,
    with_lock, acquire, bind, ret, get, modify, raise in *.

Section LockDiscipline.

Variables (t : Tid) (net : Response).

(** [flush] entered by the thread that holds the lock never gets past its
    first statement *)
Lemma flush_reentrant (s : State) :
  lock s = Some t -> Canonical.flush t net s = Deadlock s.
Proof.
  intros H. unfold_py. rewrite H, Nat.eqb_refl. reflexivity.
Qed.

Lemma sample_flush_reentrant (s : State) :
  lock s = Some t -> SampleApp.flush t net s = Deadlock s.
Proof.
  intros H. unfold_py. rewrite H, Nat.eqb_refl. reflexivity.
Qed.

(** the call of [log] whose append reaches [batch_size]: the entry is in
    the buffer, the lock is held by the caller, nothing was sent, and the
    call is stuck *)
Lemma log_threshold_outcome (s : State) (l : string) (message : Json)
      (context : Dict) (now : string) :
  lock s = None ->
  (batch_size s <= Z.of_nat (length (buffer s)) + 1)%Z ->
  Canonical.log t (JStr l) message context now net s =
  Deadlock (set_buffer
              (buffer s ++ [Canonical.make_entry now l message
                              (service_name s) context])
              (set_lock (Some t) s)).
Proof.
  intros Hl Hb. unfold Canonical.log, with_lock, acquire, bind, get, modify.
  rewrite Hl. cbn [lock buffer batch_size set_buffer set_lock service_name].
  rewrite length_app. cbn [length].
  replace (batch_size s <=? Z.of_nat (length (buffer s) + 1))%Z with true
    by (symmetry; apply Z.leb_le; lia).
  rewrite flush_reentrant by reflexivity. reflexivity.
Qed.

Lemma log_below_threshold (s : State) (l : string) (message : Json)
      (context : Dict) (now : string) :
  lock s = None ->
  (Z.of_nat (length (buffer s)) + 1 < batch_size s)%Z ->
  Canonical.log t (JStr l) message context now net s =
  Returned tt (set_buffer
                 (buffer s ++ [Canonical.make_entry now l message
                                 (service_name s) context]) s).
Proof.
  intros Hl Hb. unfold Canonical.log, with_lock, acquire, bind, get, modify, ret.
  rewrite Hl. cbn [lock buffer batch_size set_buffer set_lock service_name].
  rewrite length_app. cbn [length].
  replace (batch_size s <=? Z.of_nat (length (buffer s) + 1))%Z with false
    by (symmetry; apply Z.leb_gt; lia).
  destruct s; cbn in *; subst; reflexivity.
Qed.

Lemma sample_log_threshold_outcome (s : State) (level message context tags : Json)
      (now : string) (clk : Z) :
  lock s = None ->
  (batch_size s <= Z.of_nat (length (buffer s)) + 1)%Z ->
  SampleApp._log t level message context tags now clk net s =
  Deadlock (set_buffer
              (buffer s ++ [SampleApp.make_entry now level message
                              (service_name s) context tags])
              (set_lock (Some t) s)).
Proof.
  intros Hl Hb. unfold SampleApp._log, with_lock, acquire, bind, get, modify.
  rewrite Hl. cbn [lock buffer batch_size set_buffer set_lock service_name].
  rewrite length_app. cbn [length].
  replace (batch_size s <=? Z.of_nat (length (buffer s) + 1))%Z with true
    by (symmetry; apply Z.leb_le; lia).
  rewrite sample_flush_reentrant by reflexivity. reflexivity.
Qed.

End LockDiscipline.

Section CanonicalFlush.

Variable t : Tid.

Lemma flush_begin_free (s : State) :
  lock s = None ->
  Canonical.flush_begin t s =
  match buffer s with
  | [] => Returned None s
  | logs => Returned (Some logs) (set_buffer [] s)
  end.
Proof.
  intros Hl. unfold_py. rewrite Hl.
  destruct s as [k u p sv B I buf lk tm sn dg ck ah]; cbn in *; subst.
  destruct buf; reflexivity.
Qed.

(** the answer is a failure: diagnostics, then the snapshot is appended to
    whatever the buffer holds by then *)
Lemma flush_send_failure (s : State) (logs : list Dict) (net : Response) :
  lock s = None ->
  failure net = true ->
  exists d,
    Canonical.flush_send t logs net s =
    Returned tt (set_buffer (buffer s ++ logs)
                   (add_diag d (add_sent (Canonical.make_request s logs) net s))).
Proof.
  intros Hl Hf.
  destruct s as [k u p sv B I buf lk tm sn dg ck ah]; cbn in *; subst.
  destruct net as [code | msg | msg]; cbn in Hf; try discriminate.
  - exists (FailedToSend code). unfold_py. cbn.
    destruct (Canonical.success code); [discriminate | reflexivity].
  - exists (NetworkError msg). reflexivity.
Qed.

(** the answer is a failure and the lock is taken: the requeue does not get
    the lock, and the snapshot stays outside the buffer *)
Lemma flush_send_failure_held (s : State) (logs : list Dict) (net : Response)
      (owner : Tid) :
  lock s = Some owner ->
  failure net = true ->
  exists d,
    let s' := add_diag d (add_sent (Canonical.make_request s logs) net s) in
    Canonical.flush_send t logs net s =
    if Nat.eqb owner t then Deadlock s' else Waits s'.
Proof.
  intros Hl Hf.
  destruct s as [k u p sv B I buf lk tm sn dg ck ah]; cbn in *; subst.
  destruct net as [code | msg | msg]; cbn in Hf; try discriminate.
  - exists (FailedToSend code). unfold_py. cbn.
    destruct (Canonical.success code); [discriminate|]. cbn.
    destruct (Nat.eqb owner t); reflexivity.
  - exists (NetworkError msg). unfold_py. cbn.
    destruct (Nat.eqb owner t); reflexivity.
Qed.

Lemma flush_send_delivered (s : State) (logs : list Dict) (net : Response) :
  delivered net = true ->
  Canonical.flush_send t logs net s =
  Returned tt (add_sent (Canonical.make_request s logs) net s).
Proof.
  intros Hd. destruct net as [code | msg | msg]; cbn in Hd; try discriminate.
  unfold_py. rewrite Hd. reflexivity.
Qed.

Lemma flush_empty (s : State) (net : Response) :
  lock s = None -> buffer s = [] -> Canonical.flush t net s = Returned tt s.
Proof.
  intros Hl Hb. unfold Canonical.flush, bind.
  rewrite flush_begin_free, Hb by assumption. reflexivity.
Qed.

Lemma flush_delivered (s : State) (net : Response) :
  lock s = None -> buffer s <> [] -> delivered net = true ->
  Canonical.flush t net s =
  Returned tt (add_sent (Canonical.make_request s (buffer s)) net
                        (set_buffer [] s)).
Proof.
  intros Hl Hb Hd. unfold Canonical.flush, bind.
  rewrite flush_begin_free by assumption.
  destruct (buffer s) as [|e b] eqn:E; [congruence|].
  rewrite flush_send_delivered by assumption. reflexivity.
Qed.

Lemma flush_failed (s : State) (net : Response) :
  lock s = None -> buffer s <> [] -> failure net = true ->
  exists s',
    Canonical.flush t net s = Returned tt s' /\
    buffer s' = buffer s /\
    lock s' = None /\
    sent s' = sent s ++ [(Canonical.make_request s (buffer s), net)].
Proof.
  intros Hl Hb Hf. unfold Canonical.flush, bind.
  rewrite flush_begin_free by assumption.
  destruct (buffer s) as [|e b] eqn:E; [congruence|].
  destruct (flush_send_failure (set_buffer [] s) (e :: b) net) as [d Hd];
    [exact Hl | exact Hf |].
  rewrite Hd. eexists. split; [reflexivity|]. cbn. auto.
Qed.

End CanonicalFlush.

(** ** The inline flush at the batch-size threshold *)

(** C1. The claim: the call of [log] that brings the buffer to [batch_size]
    triggers one send of those entries and leaves the buffer empty.  On the
    code, with [batch_size = 3], the third call re-acquires the lock it
    holds and is stuck: no request is issued and the three entries stay in
    the buffer, in call order. *)
Theorem threshold_call_sends_nothing :
  exists s',
    (Canonical.info 1 [JStr "Message 1"] [] "t1" (Status 200) ;;;
     Canonical.info 1 [JStr "Message 2"] [] "t2" (Status 200) ;;;
     Canonical.info 1 [JStr "Message 3"] [] "t3" (Status 200))
      (example_logger 3) = Deadlock s' /\
    sent s' = [] /\
    map (dict_get "message") (buffer s') =
      [Some (JStr "Message 1"); Some (JStr "Message 2"); Some (JStr "Message 3")] /\
    lock s' = Some 1.
Proof.
  eexists. split; [vm_compute; reflexivity|]. cbn. auto.
Qed.

(** C3. The claim: every call of [log] returns, the one reaching the
    threshold included.  On the code that call never returns: it ends
    blocked on the lock its own thread holds, and keeps holding it. *)
Theorem log_at_threshold_never_returns
        (t : Tid) (net : Response) (s : State) (l : string) (message : Json)
        (context : Dict) (now : string) :
  lock s = None ->
  (batch_size s <= Z.of_nat (length (buffer s)) + 1)%Z ->
  let o := Canonical.log t (JStr l) message context now net s in
  returns o = false /\
  o = Deadlock (final_state o) /\
  lock (final_state o) = Some t /\
  sent (final_state o) = sent s.
Proof.
  intros Hl Hb o. subst o.
  rewrite (log_threshold_outcome t net s l message context now Hl Hb).
  cbn. auto.
Qed.

Lemma log_at_threshold_never_returns_witness :
  let s := example_logger 1 in
  let o := Canonical.log 7 (JStr "info") (JStr "hello") [] "t" (Status 200) s in
  returns o = false /\ o = Deadlock (final_state o) /\
  lock (final_state o) = Some 7 /\ sent (final_state o) = sent s.
Proof.
  apply (log_at_threshold_never_returns 7 (Status 200) (example_logger 1)
           "info" (JStr "hello") [] "t").
  - reflexivity.
  - vm_compute. discriminate.
Defined.

(** the same re-entrant acquisition in the sample application's copy *)
Lemma sample_threshold_call_is_stuck
      (t : Tid) (net : Response) (s : State) (level message context tags : Json)
      (now : string) (clk : Z) :
  lock s = None ->
  (batch_size s <= Z.of_nat (length (buffer s)) + 1)%Z ->
  returns (SampleApp._log t level message context tags now clk net s) = false.
Proof.
  intros Hl Hb. rewrite sample_log_threshold_outcome by assumption. reflexivity.
Qed.

(** ** Shutdown *)

(** C5. The claim: the logger has a [close()] that sends what is buffered
    once.  The class defines no such method: in every state the call raises
    [AttributeError] and changes nothing; after two calls of [info] (fewer
    than [batch_size]) the two entries are still in the buffer and no
    request was issued. *)
Theorem close_is_not_defined :
  (forall t pos kw now net s,
      Canonical.invoke "close" t pos kw now net s =
      Raised (AttributeError "'DevSmithLogger' object has no attribute 'close'") s) /\
  (exists e s',
      (Canonical.invoke "info" 1 [JStr "Message 1"] [] "t1" (Status 200) ;;;
       Canonical.invoke "info" 1 [JStr "Message 2"] [] "t2" (Status 200) ;;;
       Canonical.invoke "close" 1 [] [] "t3" (Status 200)) (example_logger 100) =
      Raised (AttributeError e) s' /\
      map (dict_get "message") (buffer s') =
        [Some (JStr "Message 1"); Some (JStr "Message 2")] /\
      sent s' = []).
Proof.
  split.
  - intros. reflexivity.
  - do 2 eexists. split; [vm_compute; reflexivity|].
    split; reflexivity.
Qed.

(** what [close()] is claimed to do is what two explicit [flush()] calls do *)
Lemma flush_then_flush (t : Tid) (net net' : Response) (s : State) :
  lock s = None -> buffer s <> [] -> delivered net = true ->
  exists s',
    (Canonical.flush t net ;;; Canonical.flush t net') s = Returned tt s' /\
    sent s' = sent s ++ [(Canonical.make_request s (buffer s), net)] /\
    buffer s' = [].
Proof.
  intros Hl Hb Hd. unfold bind at 1.
  rewrite flush_delivered by assumption.
  rewrite flush_empty by (cbn; auto).
  eexists. split; [reflexivity|]. cbn. auto.
Qed.

(** ** Entries *)

(** C7. The claim: every entry carries a [tags] field.  The entry built by
    [log] has exactly five keys and [tags] is not one of them; a caller that
    passes [context=] and [tags=] (as the unit tests do) gets both stored
    inside the entry's [context]. *)
Theorem entry_has_no_tags :
  (forall now l message service context,
      dict_keys (Canonical.make_entry now l message service context) =
      ["timestamp"; "level"; "message"; "service"; "context"] /\
      dict_get "tags" (Canonical.make_entry now l message service context) = None) /\
  (exists s' e,
      Canonical.info 1 [JStr "Message"]
        [("context", JObj [("user_id", JInt 123)]);
         ("tags", JList [JStr "auth"; JStr "user"])] "t" (Status 200)
        (example_logger 100) = Returned tt s' /\
      buffer s' = [e] /\
      dict_get "tags" e = None /\
      dict_get "context" e =
        Some (JObj [("context", JObj [("user_id", JInt 123)]);
                    ("tags", JList [JStr "auth"; JStr "user"])]) /\
      forall net,
        map (fun r => map (dict_has "tags") (req_logs (fst r)))
            (sent (final_state (Canonical.flush 1 net s'))) = [[false]]).
Proof.
  split.
  - intros. split; reflexivity.
  - eexists. eexists. split; [vm_compute; reflexivity|].
    repeat split. intros net. destruct net as [c | m | m].
    + unfold_py. cbn. destruct (Canonical.success c); reflexivity.
    + reflexivity.
    + reflexivity.
Qed.

(** the sample application's copy does build the field, empty by default *)
Lemma sample_entry_has_tags (now : string) (level message : Json)
      (service : string) (context tags : Json) :
  dict_get "tags" (SampleApp.make_entry now level message service context tags) =
  Some (py_or tags (JList [])) /\
  dict_get "tags" (SampleApp.make_entry now level message service context JNull) =
  Some (JList []).
Proof. split; reflexivity. Qed.

(** ** The flush timer *)

(** a tick that finds the buffer empty re-arms the timer one interval after
    the firing *)
Lemma idle_tick_rearms (t : Tid) (net : Response) (s : State) (d : Z) :
  lock s = None -> timer s = Some d -> buffer s = [] ->
  exists s',
    Canonical.timer_fires t net s = Returned tt s' /\
    timer s' = Some (Z.max (clock s) d + flush_interval s)%Z /\
    sent s' = sent s.
Proof.
  intros Hl Ht Hb. unfold Canonical.timer_fires. rewrite Ht.
  destruct s as [k u p sv B I buf lk tm sn dg ck ah]; cbn in *; subst.
  eexists. split; [reflexivity|]. cbn. auto.
Qed.

(** C8. The claim: after each firing the timer is re-armed, whether or not
    the tick did work.  On the code a tick that finds entries in the buffer
    calls [flush] while holding the lock: the timer thread is stuck before
    [_start_timer], no timer is pending any more, nothing is sent, and the
    lock stays taken. *)
Theorem busy_tick_never_rearms
        (t : Tid) (net : Response) (s : State) (d : Z) :
  lock s = None -> timer s = Some d -> buffer s <> [] ->
  exists s',
    Canonical.timer_fires t net s = Deadlock s' /\
    timer s' = None /\
    lock s' = Some t /\
    sent s' = sent s /\
    buffer s' = buffer s.
Proof.
  intros Hl Ht Hb. unfold Canonical.timer_fires. rewrite Ht.
  destruct s as [k u p sv B I buf lk tm sn dg ck ah]; cbn in *; subst.
  destruct buf as [|e buf]; [congruence|].
  unfold Canonical.flush_periodically, with_lock, acquire, bind, get. cbn.
  rewrite flush_reentrant by reflexivity.
  eexists. split; [reflexivity|]. cbn. auto.
Qed.

Lemma busy_tick_never_rearms_witness :
  let s := final_state (Canonical.info 1 [JStr "Message 1"] [] "t1" (Status 200)
                          (example_logger 100)) in
  exists s',
    Canonical.timer_fires 2 (Status 200) s = Deadlock s' /\
    timer s' = None /\ lock s' = Some 2 /\ sent s' = sent s /\
    buffer s' = buffer s.
Proof.
  apply (busy_tick_never_rearms 2 (Status 200) _ 5%Z).
  - reflexivity.
  - reflexivity.
  - vm_compute. discriminate.
Defined.

(** in the sample application's copy every [_log] below the threshold
    replaces the pending timer, and a firing arms none *)
Lemma sample_log_rearms_timer
      (t : Tid) (net : Response) (s : State) (level message context tags : Json)
      (now : string) (clk : Z) :
  lock s = None ->
  (Z.of_nat (length (buffer s)) + 1 < batch_size s)%Z ->
  timer (final_state (SampleApp._log t level message context tags now clk net s)) =
  Some (clk + flush_interval s)%Z.
Proof.
  intros Hl Hb. unfold SampleApp._log, with_lock, acquire, bind, get, modify.
  rewrite Hl. cbn [lock buffer batch_size set_buffer set_lock service_name].
  rewrite length_app. cbn [length].
  replace (batch_size s <=? Z.of_nat (length (buffer s) + 1))%Z with false
    by (symmetry; apply Z.leb_gt; lia).
  reflexivity.
Qed.

Lemma sample_tick_arms_nothing (t : Tid) (net : Response) (s : State) (d : Z) :
  lock s = None -> timer s = Some d ->
  timer (final_state (SampleApp.timer_fires t net s)) = None.
Proof.
  intros Hl Ht. unfold SampleApp.timer_fires. rewrite Ht.
  destruct s as [k u p sv B I buf lk tm sn dg ck ah]; cbn in *; subst.
  destruct buf as [|e buf]; [reflexivity|].
  destruct net as [c | m | m]; unfold_py; cbn;
    try destruct (SampleApp.urlopen_returns c); reflexivity.
Qed.

(** ** Failed deliveries *)

(** the SDK module puts a failed batch back and a later successful flush
    carries every entry of it *)
Lemma failed_batch_is_resent (t : Tid) (net net' : Response) (s : State) :
  lock s = None -> buffer s <> [] -> failure net = true -> delivered net' = true ->
  exists s',
    (Canonical.flush t net ;;; Canonical.flush t net') s = Returned tt s' /\
    buffer s' = [] /\
    exists r, last (sent s') (Canonical.make_request s [], net) = (r, net') /\
              req_logs r = buffer s.
Proof.
  intros Hl Hb Hf Hd. unfold bind at 1.
  destruct (flush_failed t s net Hl Hb Hf) as (s1 & E1 & B1 & L1 & S1).
  rewrite E1. rewrite flush_delivered; [| assumption | congruence | assumption].
  eexists. split; [reflexivity|]. split; [reflexivity|].
  eexists. split.
  - cbn. rewrite last_last. reflexivity.
  - cbn. exact B1.
Qed.

(** the sample application's [flush] empties the buffer whatever the answer *)
Lemma sample_flush_clears (t : Tid) (net : Response) (s : State) :
  lock s = None ->
  exists s', SampleApp.flush t net s = Returned tt s' /\ buffer s' = [].
Proof.
  intros Hl.
  destruct s as [k u p sv B I buf lk tm sn dg ck ah]; cbn in *; subst.
  destruct buf as [|e buf]; [eexists; split; reflexivity|].
  destruct net as [c | m | m]; unfold_py; cbn;
    try destruct (SampleApp.urlopen_returns c);
    eexists; split; reflexivity.
Qed.

(** C2. The claim: a flush that fails puts every entry of its batch back, so
    a later successful flush delivers it.  In the sample application's copy
    the [except] branch only prints: after a refused connection the entry is
    in no buffer, and the next flush has nothing to send. *)
Theorem sample_flush_loses_failed_batch :
  let s0 := SampleApp.init "http://localhost:3000/api/logs/batch" "key"
                           "my-project" "flask-app" 100 5 0 in
  exists s1 s2 s3 e,
    SampleApp.info 1 (JStr "Incoming request") JNull JNull "t1" 0 (Status 200) s0 =
      Returned tt s1 /\
    buffer s1 = [e] /\
    SampleApp.flush 1 (TransportFailure "Connection refused") s1 = Returned tt s2 /\
    buffer s2 = [] /\
    map (fun r => (req_logs (fst r), delivered (snd r))) (sent s2) = [([e], false)] /\
    SampleApp.flush 1 (Status 200) s2 = Returned tt s3 /\
    sent s3 = sent s2 /\
    buffer s3 = [].
Proof.
  cbv zeta. do 4 eexists.
  split; [vm_compute; reflexivity|].
  split; [reflexivity|].
  split; [vm_compute; reflexivity|].
  split; [reflexivity|].
  split; [reflexivity|].
  split; [vm_compute; reflexivity|].
  split; reflexivity.
Qed.

(** ** Construction *)

(** the SDK constructor refuses a missing or empty required field and
    accepts the rest *)
Lemma init_validates
      (k u p sv : option string) (B I now : Z) :
  (falsy k || falsy p || falsy sv = true ->
   exists msg, Canonical.init k u p sv B I now = inl (ValueError msg)) /\
  (falsy k || falsy p || falsy sv = false -> u <> None ->
   exists s, Canonical.init k u p sv B I now = inr s /\
             buffer s = [] /\ lock s = None /\ sent s = []).
Proof.
  unfold Canonical.init. split.
  - intros H. destruct (falsy k); [eexists; reflexivity|].
    destruct (falsy p); [eexists; reflexivity|].
    destruct (falsy sv); [eexists; reflexivity|]. discriminate.
  - intros H Hu. destruct (falsy k); [discriminate|].
    destruct (falsy p); [discriminate|].
    destruct (falsy sv); [discriminate|].
    destruct u as [url|]; [|congruence].
    eexists. split; [reflexivity|]. cbn. auto.
Qed.

(** C6. The claim: construction fails when [api_key], [project_slug] or
    [service_name] is empty.  The constructor of the sample application's
    copy checks nothing: with all three empty it yields a logger that
    buffers entries and posts them with an empty credential. *)
Theorem sample_init_accepts_empty_fields :
  let s0 := SampleApp.init "http://localhost:3000/api/logs/batch" "" "" ""
                           100 5 0 in
  api_key s0 = "" /\ project_slug s0 = "" /\ service_name s0 = "" /\
  exists s1 s2 r,
    SampleApp.info 1 (JStr "Flask server starting") JNull JNull "t1" 0 (Status 200) s0 =
      Returned tt s1 /\
    length (buffer s1) = 1%nat /\
    SampleApp.flush 1 (Status 200) s1 = Returned tt s2 /\
    sent s2 = [(r, Status 200)] /\
    req_project_slug r = "" /\
    req_headers r = [("Content-Type", "application/json");
                     ("Authorization", "Bearer ")].
Proof.
  cbv zeta. repeat split.
  do 3 eexists.
  split; [vm_compute; reflexivity|].
  split; [reflexivity|].
  split; [vm_compute; reflexivity|].
  repeat split.
Qed.

(** ** Where a failed batch goes *)

(** C4, as stated, fails: thread 1 logs "first" and starts a flush; while
    its request is in flight thread 2 logs "second"; the request times out
    and the snapshot is put back behind the newer entry. *)
Lemma requeue_is_not_at_head :
  let s0 := example_logger 100 in
  exists s1 s2 s3 s4 failed newer,
    Canonical.info 1 [JStr "first"] [] "t1" (Status 200) s0 = Returned tt s1 /\
    Canonical.flush_begin 1 s1 = Returned (Some [failed]) s2 /\
    Canonical.info 2 [JStr "second"] [] "t2" (Status 200) s2 = Returned tt s3 /\
    buffer s3 = [newer] /\
    Canonical.flush_send 1 [failed] (TransportFailure "timeout") s3 =
      Returned tt s4 /\
    buffer s4 = [newer; failed] /\
    buffer s4 <> [failed; newer].
Proof.
  cbv zeta. do 6 eexists.
  split; [vm_compute; reflexivity|].
  split; [vm_compute; reflexivity|].
  split; [vm_compute; reflexivity|].
  split; [reflexivity|].
  split; [vm_compute; reflexivity|].
  split; [reflexivity|].
  cbn. intros H. discriminate H.
Qed.

(** C4, amended.  On a delivery failure (a status other than 200 and 201,
    or a transport failure) the SDK module puts the failed snapshot back
    with [buffer.extend] under the lock.  When the lock is free the failed
    entries are appended at the tail of the buffer: the entries logged
    during the failed send come first, in their order, then the failed
    entries, in theirs.  While the lock is held the requeue is blocked and
    the buffer is left as it is: for good if the holder is the calling
    thread itself, else until the holder releases it; and whenever the
    requeue runs with the lock free, it appends the failed entries at the
    tail of the buffer as it is then.  The failed entries are never placed
    at the head. *)
Theorem requeue_appends_at_tail
        (t : Tid) (s : State) (logs : list Dict) (net : Response) :
  failure net = true ->
  match lock s with
  | None =>
      exists s',
        Canonical.flush_send t logs net s = Returned tt s' /\
        buffer s' = buffer s ++ logs /\
        lock s' = None
  | Some owner =>
      exists s',
        Canonical.flush_send t logs net s =
          (if Nat.eqb owner t then Deadlock s' else Waits s') /\
        buffer s' = buffer s /\
        lock s' = Some owner
  end /\
  (forall s2, lock s2 = None ->
     exists s3,
       Canonical.requeue t logs s2 = Returned tt s3 /\
       buffer s3 = buffer s2 ++ logs /\
       lock s3 = None).
Proof.
  intros Hf. split.
  - destruct (lock s) as [owner|] eqn:Hl.
    + destruct (flush_send_failure_held t s logs net owner Hl Hf) as [d Hd].
      cbv zeta in Hd. rewrite Hd. eexists. split; [reflexivity|]. cbn. auto.
    + destruct (flush_send_failure t s logs net Hl Hf) as [d Hd].
      rewrite Hd. eexists. split; [reflexivity|]. cbn. auto.
  - intros s2 Hl. unfold Canonical.requeue, with_lock, acquire, modify.
    rewrite Hl. eexists. split; [reflexivity|]. cbn. auto.
Qed.

Lemma requeue_appends_at_tail_witness :
  let s := set_buffer [[("message", JStr "second")]] (example_logger 100) in
  let logs := [[("message", JStr "first")]] in
  (exists s',
     Canonical.flush_send 1 logs (Status 503) s = Returned tt s' /\
     buffer s' = buffer s ++ logs /\
     lock s' = None) /\
  (exists s',
     Canonical.flush_send 1 logs (Status 503) (set_lock (Some 2) s) = Waits s' /\
     buffer s' = buffer (set_lock (Some 2) s) /\
     lock s' = Some 2) /\
  (forall s2, lock s2 = None ->
     exists s3,
       Canonical.requeue 1 logs s2 = Returned tt s3 /\
       buffer s3 = buffer s2 ++ logs /\
       lock s3 = None).
Proof.
  split; [|split].
  - apply (proj1 (requeue_appends_at_tail 1
             (set_buffer [[("message", JStr "second")]] (example_logger 100))
             [[("message", JStr "first")]] (Status 503) eq_refl)).
  - apply (proj1 (requeue_appends_at_tail 1
             (set_lock (Some 2)
                (set_buffer [[("message", JStr "second")]] (example_logger 100)))
             [[("message", JStr "first")]] (Status 503) eq_refl)).
  - apply (proj2 (requeue_appends_at_tail 1
             (set_buffer [[("message", JStr "second")]] (example_logger 100))
             [[("message", JStr "first")]] (Status 503) eq_refl)).
Defined.

(** ** The endpoint *)

Section Rstrip.

Variable c : ascii.

Lemma rstrip_replicate (n : nat) : rstrip c (replicate n c) = "".
Proof.
  induction n as [|n IH]; cbn; [reflexivity|].
  rewrite IH, Ascii.eqb_refl. reflexivity.
Qed.

Lemma rstrip_app_replicate (s : string) (n : nat) :
  rstrip c (s ++ replicate n c) = rstrip c s.
Proof.
  induction s as [|a s IH]; cbn.
  - apply rstrip_replicate.
  - rewrite IH. reflexivity.
Qed.

Lemma rstrip_decompose (s : string) :
  exists m, s = (rstrip c s ++ replicate m c)%string.
Proof.
  induction s as [|a s [m IH]]; cbn.
  - exists O. reflexivity.
  - destruct (rstrip c s) as [|b r] eqn:E; cbn.
    + destruct (Ascii.eqb a c) eqn:Ea.
      * apply Ascii.eqb_eq in Ea. subst a. exists (S m). cbn.
        rewrite IH at 1. reflexivity.
      * exists m. cbn. rewrite IH at 1. reflexivity.
    + exists m. cbn. rewrite IH at 1. reflexivity.
Qed.

Lemma rstrip_no_trailing (s w : string) :
  rstrip c s <> (w ++ String c "")%string.
Proof.
  revert w. induction s as [|a s IH]; intros w; cbn.
  - destruct w; discriminate.
  - destruct (rstrip c s) as [|b r] eqn:E; cbn.
    + destruct (Ascii.eqb a c) eqn:Ea.
      * destruct w; discriminate.
      * destruct w as [|b w]; cbn; intros H; inversion H; subst.
        -- rewrite Ascii.eqb_refl in Ea. discriminate.
        -- destruct w; discriminate.
    + destruct w as [|b' w]; cbn; intros H; inversion H; subst.
      apply (IH w). assumption.
Qed.

Lemma rstrip_idempotent (s : string) : rstrip c (rstrip c s) = rstrip c s.
Proof.
  destruct (rstrip_decompose s) as [m E].
  rewrite E at 2. rewrite rstrip_app_replicate. reflexivity.
Qed.

End Rstrip.

Section EndpointInvariant.

Variable u : string.

Lemma keeps_ret {A} (a : A) : keeps u (ret a).
Proof. intros s H. exact H. Qed.

Lemma keeps_raise {A} (e : Exn) : keeps u (@raise A e).
Proof. intros s H. exact H. Qed.

Lemma keeps_get : keeps u get.
Proof. intros s H. exact H. Qed.

Lemma keeps_modify (f : State -> State) :
  (forall s, at_endpoint u s -> at_endpoint u (f s)) -> keeps u (modify f).
Proof. intros Hf s H. apply Hf, H. Qed.

Lemma keeps_bind {A B} (m : M A) (k : A -> M B) :
  keeps u m -> (forall a, keeps u (k a)) -> keeps u (bind m k).
Proof.
  intros Hm Hk s H. unfold bind. specialize (Hm s H).
  destruct (m s) as [a s' | e s' | s' | s']; cbn in *; auto.
  apply Hk, Hm.
Qed.

Lemma at_endpoint_set_lock (l : option Tid) (s : State) :
  at_endpoint u s -> at_endpoint u (set_lock l s).
Proof. intros H. exact H. Qed.

Lemma at_endpoint_set_buffer (b : list Dict) (s : State) :
  at_endpoint u s -> at_endpoint u (set_buffer b s).
Proof. intros H. exact H. Qed.

Lemma at_endpoint_set_timer (d : option Z) (s : State) :
  at_endpoint u s -> at_endpoint u (set_timer d s).
Proof. intros H. exact H. Qed.

Lemma at_endpoint_set_clock (d : Z) (s : State) :
  at_endpoint u s -> at_endpoint u (set_clock d s).
Proof. intros H. exact H. Qed.

Lemma at_endpoint_add_diag (d : Diag) (s : State) :
  at_endpoint u s -> at_endpoint u (add_diag d s).
Proof. intros H. exact H. Qed.

Lemma at_endpoint_add_sent (s0 s : State) (logs : list Dict) (net : Response) :
  api_url s0 = u ->
  at_endpoint u s ->
  at_endpoint u (add_sent (Canonical.make_request s0 logs) net s).
Proof.
  intros H0 [Hu Hs]. split; [exact Hu|]. cbn.
  apply Forall_app. split; [exact Hs|].
  constructor; [|constructor]. cbn. unfold Canonical.endpoint.
  rewrite H0. reflexivity.
Qed.

Lemma keeps_with_lock {A} (t : Tid) (body : M A) :
  keeps u body -> keeps u (with_lock t body).
Proof.
  intros Hb s H. unfold with_lock, acquire.
  destruct (lock s) as [owner|].
  - destruct (Nat.eqb owner t); exact H.
  - specialize (Hb (set_lock (Some t) s) (at_endpoint_set_lock _ _ H)).
    destruct (body (set_lock (Some t) s)); cbn in *; auto.
Qed.

Lemma keeps_start_timer : keeps u Canonical._start_timer.
Proof. apply keeps_modify. intros s H. exact H. Qed.

Lemma keeps_flush_begin (t : Tid) : keeps u (Canonical.flush_begin t).
Proof.
  apply keeps_with_lock, keeps_bind; [apply keeps_get|].
  intros s. destruct (buffer s); [apply keeps_ret|].
  apply keeps_bind; [|intros; apply keeps_ret].
  apply keeps_modify. intros s' H. exact H.
Qed.

Lemma keeps_requeue (t : Tid) (logs : list Dict) :
  keeps u (Canonical.requeue t logs).
Proof.
  apply keeps_with_lock, keeps_modify. intros s H. exact H.
Qed.

Lemma keeps_flush_send (t : Tid) (logs : list Dict) (net : Response) :
  keeps u (Canonical.flush_send t logs net).
Proof.
  intros s H. unfold Canonical.flush_send, bind, get, modify.
  assert (H1 : at_endpoint u (add_sent (Canonical.make_request s logs) net s))
    by (apply at_endpoint_add_sent; [apply H | exact H]).
  destruct net as [code | msg | msg].
  - destruct (Canonical.success code); [exact H1|].
    apply keeps_requeue. exact H1.
  - apply keeps_requeue. exact H1.
  - exact H1.
Qed.

Lemma keeps_flush (t : Tid) (net : Response) : keeps u (Canonical.flush t net).
Proof.
  apply keeps_bind; [apply keeps_flush_begin|].
  intros [logs|]; [apply keeps_flush_send | apply keeps_ret].
Qed.

Lemma keeps_log (t : Tid) (level message : Json) (context : Dict)
      (now : string) (net : Response) :
  keeps u (Canonical.log t level message context now net).
Proof.
  unfold Canonical.log. destruct level as [| | |l| |]; try apply keeps_raise.
  apply keeps_bind; [apply keeps_get|]. intros s0.
  apply keeps_with_lock, keeps_bind.
  - apply keeps_modify. intros s H. exact H.
  - intros _. apply keeps_bind; [apply keeps_get|]. intros s.
    destruct (batch_size s <=? _)%Z; [apply keeps_flush | apply keeps_ret].
Qed.

Lemma keeps_call_log (t : Tid) (pos : list Json) (kw : Dict)
      (now : string) (net : Response) :
  keeps u (Canonical.call_log t pos kw now net).
Proof.
  unfold Canonical.call_log.
  destruct (bind_args _ _ _) as [e | [bound context]];
    [apply keeps_raise | apply keeps_log].
Qed.

Lemma keeps_convenience (L : string) (t : Tid) (pos : list Json) (kw : Dict)
      (now : string) (net : Response) :
  keeps u (Canonical.convenience L t pos kw now net).
Proof.
  unfold Canonical.convenience.
  destruct (bind_args _ _ _) as [e | [bound context]];
    [apply keeps_raise | apply keeps_call_log].
Qed.

Lemma keeps_invoke (name : string) (t : Tid) (pos : list Json) (kw : Dict)
      (now : string) (net : Response) :
  keeps u (Canonical.invoke name t pos kw now net).
Proof.
  unfold Canonical.invoke, Canonical.debug, Canonical.info, Canonical.warn,
    Canonical.error.
  repeat match goal with
         | |- keeps _ (if ?b then _ else _) => destruct b
         | |- keeps _ (match ?x with _ => _ end) => destruct x
         end;
    auto using keeps_call_log, keeps_convenience, keeps_flush,
      keeps_start_timer, keeps_raise.
Qed.

Lemma keeps_timer_fires (t : Tid) (net : Response) :
  keeps u (Canonical.timer_fires t net).
Proof.
  intros s H. unfold Canonical.timer_fires.
  destruct (timer s) as [d|]; [|exact H].
  apply (keeps_bind (with_lock t _) (fun _ => Canonical._start_timer)).
  - apply keeps_with_lock, keeps_bind; [apply keeps_get|].
    intros s'. destruct (buffer s'); [apply keeps_ret | apply keeps_flush].
  - intros _. apply keeps_start_timer.
  - exact H.
Qed.

Lemma step_keeps (s s' : State) :
  step s s' -> at_endpoint u s -> at_endpoint u s'.
Proof.
  intros Hs H. destruct Hs.
  - apply keeps_invoke, H.
  - apply keeps_timer_fires, H.
  - apply keeps_flush_begin, H.
  - apply keeps_flush_send, H.
Qed.

Lemma reachable_keeps (s0 s : State) :
  reachable s0 s -> at_endpoint u s0 -> at_endpoint u s.
Proof.
  induction 1 as [|a b _ IH Hs]; intros H0; [exact H0|].
  eapply step_keeps; eauto.
Qed.

End EndpointInvariant.

(** C9. Whatever [api_url] the constructor is given, the logger keeps it
    with every trailing '/' removed and nothing else changed; building the
    logger from the stripped value gives the very same logger; and every
    request of every execution goes to the stripped value followed by
    "/api/logs/batch". *)
Theorem trailing_slashes_are_stripped
        (k p sv : option string) (url : string) (B I now : Z) (s0 : State) :
  Canonical.init k (Some url) p sv B I now = inr s0 ->
  api_url s0 = rstrip slash url /\
  (exists m, url = (api_url s0 ++ replicate m slash)%string) /\
  (forall w, api_url s0 <> (w ++ "/")%string) /\
  Canonical.init k (Some (api_url s0)) p sv B I now = inr s0 /\
  forall s, reachable s0 s ->
    forall r a, In (r, a) (sent s) ->
      req_url r = (api_url s0 ++ "/api/logs/batch")%string.
Proof.
  intros H. unfold Canonical.init in *.
  destruct (falsy k); [discriminate|].
  destruct (falsy p); [discriminate|].
  destruct (falsy sv); [discriminate|].
  inversion H; subst s0; clear H. cbn [api_url add_atexit final_state
    Canonical._start_timer modify set_timer].
  split; [reflexivity|].
  split; [apply rstrip_decompose|].
  split; [intros w; apply rstrip_no_trailing|].
  split; [rewrite rstrip_idempotent; reflexivity|].
  intros s Hr r a Hin.
  match type of Hr with reachable ?s0 _ =>
    assert (H0 : at_endpoint (rstrip slash url) s0)
      by (split; [reflexivity | constructor])
  end.
  destruct (reachable_keeps _ _ _ Hr H0) as [_ Hs].
  rewrite Forall_forall in Hs. apply (Hs (r, a) Hin).
Qed.

Lemma trailing_slashes_are_stripped_witness :
  let s0 := example_logger 2 in
  api_url s0 = rstrip slash "http://localhost:3000/" /\
  (exists m, "http://localhost:3000/" = (api_url s0 ++ replicate m slash)%string) /\
  (forall w, api_url s0 <> (w ++ "/")%string) /\
  Canonical.init (Some "key") (Some (api_url s0)) (Some "my-project")
                 (Some "api-server") 2 5 0 = inr s0 /\
  forall s, reachable s0 s ->
    forall r a, In (r, a) (sent s) ->
      req_url r = (api_url s0 ++ "/api/logs/batch")%string.
Proof.
  apply (trailing_slashes_are_stripped (Some "key") (Some "my-project")
           (Some "api-server") "http://localhost:3000/" 2 5 0).
  reflexivity.
Defined.

(** an execution that does send: the request goes to the stripped endpoint *)
Example stripped_endpoint_is_used :
  map (fun ra => req_url (fst ra))
      (sent (final_state
               ((Canonical.info 1 [JStr "User logged in"] [("user_id", JInt 123)]
                                "t1" (Status 200) ;;;
                 Canonical.flush 1 (Status 200)) (example_logger 100)))) =
  ["http://localhost:3000/api/logs/batch"].
Proof. reflexivity. Qed.

(** ** Keyword arguments *)

Section Binding.



Variable params : list string.





End Binding.

Section KeywordClash.

Variables (t : Tid) (now : string) (net : Response) (s : State).



End KeywordClash.



(** keywords with other names are the context of the entry *)
Example keywords_become_context :
  map (dict_get "context")
      (buffer (final_state
                 (Canonical.info 1 [JStr "User logged in"] [("user_id", JInt 123)]
                                 "t" (Status 200) (example_logger 100)))) =
  [Some (JObj [("user_id", JInt 123)])].
Proof. reflexivity. Qed.

(** * Further properties of the SDK module *)


(** the two ways construction fails, and one way it succeeds *)
Example init_examples :
  Canonical.init (Some "") (Some "http://h") (Some "p") (Some "svc") 100 5 0 =
    inl (ValueError "DevSmithLogger: api_key is required") /\
  Canonical.init (Some "k") None (Some "p") (Some "svc") 100 5 0 =
    inl (AttributeError "'NoneType' object has no attribute 'rstrip'") /\
  exists s, Canonical.init (Some "k") (Some "http://h/") (Some "p") (Some "svc")
                           100 5 0 = inr s /\ api_url s = "http://h".
Proof.
  split; [reflexivity|]. split; [reflexivity|].
  eexists. split; reflexivity.
Qed.

(** X2. Calls of [log] that stay below [batch_size] only fill the buffer:
    the entries are appended in call order, whichever threads call, nothing
    is sent and the lock is free again. *)
Theorem logs_below_threshold_accumulate
        (calls : list LogCall) (net : Response) (s : State) :
  lock s = None ->
  (Z.of_nat (length (buffer s)) + Z.of_nat (length calls) < batch_size s)%Z ->
  log_each calls net s =
  Returned tt (set_buffer (buffer s ++ map (entry_of (service_name s)) calls) s).
Proof.
  revert s. induction calls as [|[[[[t l] m] ctx] now] rest IH]; intros s Hl Hb.
  - cbn. rewrite app_nil_r. destruct s; reflexivity.
  - cbn [log_each]. unfold bind.
    rewrite log_below_threshold by (cbn [length] in Hb; auto; lia).
    rewrite IH.
    + cbn. rewrite <- app_assoc. reflexivity.
    + exact Hl.
    + cbn in *. rewrite length_app. cbn. lia.
Qed.

Lemma logs_below_threshold_accumulate_witness :
  let s := example_logger 100 in
  let calls := [(1, "info", JStr "a", [], "t1"); (2, "warn", JStr "b", [], "t2")] in
  log_each calls (Status 200) s =
  Returned tt (set_buffer (buffer s ++ map (entry_of (service_name s)) calls) s).
Proof.
  apply (logs_below_threshold_accumulate
           [(1, "info", JStr "a", [], "t1"); (2, "warn", JStr "b", [], "t2")]
           (Status 200) (example_logger 100)).
  - reflexivity.
  - reflexivity.
Defined.

(** X3. A [flush] that is answered 200 or 201 posts the whole buffer, in
    order, as one request to [api_url + "/api/logs/batch"] with the bearer
    credential, the project slug and a timeout of 10, and leaves the buffer
    empty; a [flush] that follows at once issues no request at all. *)
Theorem flush_sends_buffer_once
        (t t' : Tid) (net net' : Response) (s : State) :
  lock s = None -> buffer s <> [] -> delivered net = true ->
  exists r s',
    Canonical.flush t net s = Returned tt s' /\
    sent s' = sent s ++ [(r, net)] /\
    req_logs r = buffer s /\
    req_url r = (api_url s ++ "/api/logs/batch")%string /\
    req_headers r = [("Content-Type", "application/json");
                     ("Authorization", ("Bearer " ++ api_key s)%string)] /\
    req_project_slug r = project_slug s /\
    req_timeout r = 10%Z /\
    buffer s' = [] /\ lock s' = None /\
    Canonical.flush t' net' s' = Returned tt s'.
Proof.
  intros Hl Hb Hd. rewrite flush_delivered by assumption.
  do 2 eexists. split; [reflexivity|].
  split; [reflexivity|]. cbn.
  repeat (split; [reflexivity || assumption|]).
  apply flush_empty; reflexivity || (cbn; assumption).
Qed.

Lemma flush_sends_buffer_once_witness :
  let s := set_buffer [[("message", JStr "hello")]] (example_logger 100) in
  exists r s',
    Canonical.flush 1 (Status 201) s = Returned tt s' /\
    sent s' = sent s ++ [(r, Status 201)] /\
    req_logs r = buffer s /\
    req_url r = (api_url s ++ "/api/logs/batch")%string /\
    req_headers r = [("Content-Type", "application/json");
                     ("Authorization", ("Bearer " ++ api_key s)%string)] /\
    req_project_slug r = project_slug s /\
    req_timeout r = 10%Z /\
    buffer s' = [] /\ lock s' = None /\
    Canonical.flush 2 (TransportFailure "down") s' = Returned tt s'.
Proof.
  apply (flush_sends_buffer_once 1 2 (Status 201) (TransportFailure "down")
           (set_buffer [[("message", JStr "hello")]] (example_logger 100))).
  - reflexivity.
  - discriminate.
  - reflexivity.
Defined.

(** X4. In logger.py a batch whose delivery fails (a status other than 200
    and 201, or a [RequestException]) is put back under the lock.  If the
    lock is free when the answer arrives, the batch rejoins the buffer
    behind whatever was logged while the request was in flight, and the
    next successful [flush] posts those entries and the failed ones
    together, after which the buffer is empty.  If the lock is held at
    that moment (by a thread stuck at the threshold, say), the requeue
    does not get it: the request is on record, the flush is blocked and
    the buffer is left as it was, the batch not put back. *)
Theorem failed_batch_rides_next_flush
        (t t' : Tid) (net net' : Response) (s : State) (logs : list Dict) :
  logs <> [] ->
  failure net = true -> delivered net' = true ->
  match lock s with
  | None =>
      exists s1 s2,
        Canonical.flush_send t logs net s = Returned tt s1 /\
        buffer s1 = buffer s ++ logs /\
        Canonical.flush t' net' s1 = Returned tt s2 /\
        sent s2 = sent s ++ [(Canonical.make_request s logs, net);
                             (Canonical.make_request s (buffer s ++ logs), net')] /\
        buffer s2 = []
  | Some owner =>
      exists s1,
        Canonical.flush_send t logs net s =
          (if Nat.eqb owner t then Deadlock s1 else Waits s1) /\
        buffer s1 = buffer s /\
        lock s1 = Some owner /\
        sent s1 = sent s ++ [(Canonical.make_request s logs, net)]
  end.
Proof.
  intros Hn Hf Hd. destruct (lock s) as [owner|] eqn:Hl.
  - destruct (flush_send_failure_held t s logs net owner Hl Hf) as [d E].
    cbv zeta in E. rewrite E. eexists. split; [reflexivity|]. cbn. auto.
  - destruct (flush_send_failure t s logs net Hl Hf) as [d E].
    rewrite E. do 2 eexists. split; [reflexivity|]. split; [reflexivity|].
    rewrite flush_delivered; [| exact Hl | | exact Hd].
    + split; [reflexivity|]. cbn. rewrite <- app_assoc. auto.
    + cbn. intros H. apply app_eq_nil in H. destruct H as [_ H]. auto.
Qed.

Lemma failed_batch_rides_next_flush_witness :
  let s := set_buffer [[("message", JStr "newer")]] (example_logger 100) in
  let logs := [[("message", JStr "older")]] in
  (exists s1 s2,
     Canonical.flush_send 1 logs (Status 500) s = Returned tt s1 /\
     buffer s1 = buffer s ++ logs /\
     Canonical.flush 2 (Status 200) s1 = Returned tt s2 /\
     sent s2 = sent s ++ [(Canonical.make_request s logs, Status 500);
                          (Canonical.make_request s (buffer s ++ logs), Status 200)] /\
     buffer s2 = []) /\
  (exists s1,
     Canonical.flush_send 1 logs (Status 500) (set_lock (Some 3) s) = Waits s1 /\
     buffer s1 = buffer s /\
     lock s1 = Some 3 /\
     sent s1 = sent s ++ [(Canonical.make_request s logs, Status 500)]).
Proof.
  split.
  - apply (failed_batch_rides_next_flush 1 2 (Status 500) (Status 200)
             (set_buffer [[("message", JStr "newer")]] (example_logger 100))
             [[("message", JStr "older")]]).
    + discriminate.
    + reflexivity.
    + reflexivity.
  - apply (failed_batch_rides_next_flush 1 2 (Status 500) (Status 200)
             (set_lock (Some 3)
                (set_buffer [[("message", JStr "newer")]] (example_logger 100)))
             [[("message", JStr "older")]]).
    + discriminate.
    + reflexivity.
    + reflexivity.
Defined.

(** X5. Only [RequestException] is caught around the POST in logger.py: any
    other exception leaves [flush] as it is raised, after the buffer was
    cleared, so the entries of that batch are in no buffer any more and the
    next [flush] has nothing to send. *)
Theorem unexpected_exception_loses_batch
        (t t' : Tid) (msg : string) (net' : Response) (s : State) :
  lock s = None -> buffer s <> [] ->
  exists s',
    Canonical.flush t (Unexpected msg) s = Raised (OtherError msg) s' /\
    buffer s' = [] /\ lock s' = None /\
    sent s' = sent s ++ [(Canonical.make_request s (buffer s), Unexpected msg)] /\
    Canonical.flush t' net' s' = Returned tt s'.
Proof.
  intros Hl Hb. unfold Canonical.flush, bind at 1.
  rewrite flush_begin_free by exact Hl.
  destruct (buffer s) as [|e b] eqn:E; [congruence|].
  eexists. split; [reflexivity|]. cbn.
  repeat (split; [reflexivity || assumption|]).
  apply flush_empty; reflexivity || (cbn; assumption).
Qed.

Lemma unexpected_exception_loses_batch_witness :
  let s := set_buffer [[("message", JStr "hello")]] (example_logger 100) in
  exists s',
    Canonical.flush 1 (Unexpected "MemoryError") s =
      Raised (OtherError "MemoryError") s' /\
    buffer s' = [] /\ lock s' = None /\
    sent s' = sent s ++ [(Canonical.make_request s (buffer s),
                          Unexpected "MemoryError")] /\
    Canonical.flush 2 (Status 200) s' = Returned tt s'.
Proof.
  apply (unexpected_exception_loses_batch 1 2 "MemoryError" (Status 200)
           (set_buffer [[("message", JStr "hello")]] (example_logger 100))).
  - reflexivity.
  - discriminate.
Defined.

(** ** The lock *)

Section LockOk.

Variable t : Tid.

Lemma lock_ok_ret {A} (l : option Tid) (a : A) : lock_ok l t (ret a).
Proof. intros s H. exact H. Qed.

Lemma lock_ok_raise {A} (l : option Tid) (e : Exn) : lock_ok l t (@raise A e).
Proof. intros s H. exact H. Qed.

Lemma lock_ok_get (l : option Tid) : lock_ok l t get.
Proof. intros s H. exact H. Qed.

Lemma lock_ok_modify (l : option Tid) (f : State -> State) :
  (forall s, lock (f s) = lock s) -> lock_ok l t (modify f).
Proof. intros Hf s H. cbn. rewrite Hf. exact H. Qed.

Lemma lock_ok_bind {A B} (l : option Tid) (m : M A) (k : A -> M B) :
  lock_ok l t m -> (forall a, lock_ok l t (k a)) -> lock_ok l t (bind m k).
Proof.
  intros Hm Hk s H. unfold bind. specialize (Hm s H).
  destruct (m s) as [a s' | e s' | s' | s']; auto.
  apply Hk, Hm.
Qed.

(** taking the lock one holds *)
Lemma lock_ok_with_lock_held {A} (body : M A) :
  lock_ok (Some t) t (with_lock t body).
Proof.
  intros s H. unfold with_lock, acquire. rewrite H, Nat.eqb_refl. exact H.
Qed.

(** taking the free lock around a body that keeps it *)
Lemma lock_ok_with_lock_free {A} (body : M A) :
  lock_ok (Some t) t body -> lock_ok None t (with_lock t body).
Proof.
  intros Hb s H. unfold with_lock, acquire. rewrite H.
  specialize (Hb (set_lock (Some t) s) eq_refl).
  destruct (body (set_lock (Some t) s)); auto.
Qed.

Lemma lock_ok_flush_begin_free : lock_ok None t (Canonical.flush_begin t).
Proof.
  apply lock_ok_with_lock_free, lock_ok_bind; [apply lock_ok_get|].
  intros s. destruct (buffer s); [apply lock_ok_ret|].
  apply lock_ok_bind; [|intros; apply lock_ok_ret].
  apply lock_ok_modify. reflexivity.
Qed.

Lemma lock_ok_flush_send_free (logs : list Dict) (net : Response) :
  lock_ok None t (Canonical.flush_send t logs net).
Proof.
  assert (Hq : lock_ok None t (Canonical.requeue t logs)).
  { apply lock_ok_with_lock_free, lock_ok_modify. reflexivity. }
  unfold Canonical.flush_send.
  apply lock_ok_bind; [apply lock_ok_get|]. intros s.
  apply lock_ok_bind; [apply lock_ok_modify; reflexivity|]. intros _.
  destruct net as [code | msg | msg].
  - destruct (Canonical.success code); [apply lock_ok_ret|].
    apply lock_ok_bind; [apply lock_ok_modify; reflexivity | intros _; exact Hq].
  - apply lock_ok_bind; [apply lock_ok_modify; reflexivity | intros _; exact Hq].
  - apply lock_ok_raise.
Qed.

Lemma lock_ok_flush_free (net : Response) : lock_ok None t (Canonical.flush t net).
Proof.
  apply lock_ok_bind; [apply lock_ok_flush_begin_free|].
  intros [logs|]; [apply lock_ok_flush_send_free | apply lock_ok_ret].
Qed.

Lemma lock_ok_flush_held (net : Response) :
  lock_ok (Some t) t (Canonical.flush t net).
Proof.
  intros s H. rewrite flush_reentrant by exact H. exact H.
Qed.

Lemma lock_ok_log (level message : Json) (context : Dict) (now : string)
      (net : Response) :
  lock_ok None t (Canonical.log t level message context now net).
Proof.
  unfold Canonical.log. destruct level as [| | |l| |]; try apply lock_ok_raise.
  apply lock_ok_bind; [apply lock_ok_get|]. intros s0.
  apply lock_ok_with_lock_free, lock_ok_bind.
  - apply lock_ok_modify. reflexivity.
  - intros _. apply lock_ok_bind; [apply lock_ok_get|]. intros s.
    destruct (batch_size s <=? _)%Z; [apply lock_ok_flush_held | apply lock_ok_ret].
Qed.

Lemma lock_ok_call_log (pos : list Json) (kw : Dict) (now : string)
      (net : Response) :
  lock_ok None t (Canonical.call_log t pos kw now net).
Proof.
  unfold Canonical.call_log.
  destruct (bind_args _ _ _) as [e | [bound context]];
    [apply lock_ok_raise | apply lock_ok_log].
Qed.

Lemma lock_ok_convenience (L : string) (pos : list Json) (kw : Dict)
      (now : string) (net : Response) :
  lock_ok None t (Canonical.convenience L t pos kw now net).
Proof.
  unfold Canonical.convenience.
  destruct (bind_args _ _ _) as [e | [bound context]];
    [apply lock_ok_raise | apply lock_ok_call_log].
Qed.

Lemma lock_ok_invoke (name : string) (pos : list Json) (kw : Dict)
      (now : string) (net : Response) :
  lock_ok None t (Canonical.invoke name t pos kw now net).
Proof.
  unfold Canonical.invoke, Canonical.debug, Canonical.info, Canonical.warn,
    Canonical.error.
  repeat match goal with
         | |- lock_ok _ _ (if ?b then _ else _) => destruct b
         | |- lock_ok _ _ (match ?x with _ => _ end) => destruct x
         end;
    auto using lock_ok_call_log, lock_ok_convenience, lock_ok_flush_free,
      lock_ok_raise.
  apply lock_ok_modify. reflexivity.
Qed.

Lemma lock_ok_timer_fires (net : Response) :
  lock_ok None t (Canonical.timer_fires t net).
Proof.
  intros s H. unfold Canonical.timer_fires.
  destruct (timer s) as [d|]; [|exact H].
  apply (lock_ok_bind None (with_lock t _) (fun _ => Canonical._start_timer)).
  - apply lock_ok_with_lock_free, lock_ok_bind; [apply lock_ok_get|].
    intros s'. destruct (buffer s'); [apply lock_ok_ret | apply lock_ok_flush_held].
  - intros _. apply lock_ok_modify. reflexivity.
  - exact H.
Qed.

End LockOk.

(** the second half of [flush] and the lock, whatever its state when the
    answer arrives *)
Lemma flush_send_lock (t : Tid) (logs : list Dict) (net : Response) (s : State) :
  match Canonical.flush_send t logs net s with
  | Returned _ s' | Raised _ s' =>
      lock s' = lock s /\ (failure net = true -> lock s = None)
  | Deadlock s' =>
      failure net = true /\ lock s = Some t /\ lock s' = Some t
  | Waits s' =>
      failure net = true /\
      exists owner, owner <> t /\ lock s = Some owner /\ lock s' = Some owner
  end.
Proof.
  destruct s as [k u p sv B I buf lk tm sn dg ck ah].
  destruct net as [code | msg | msg]; unfold_py; cbn.
  - destruct (Canonical.success code); cbn; [split; [reflexivity | discriminate]|].
    destruct lk as [owner|]; cbn; [|auto].
    destruct (Nat.eqb owner t) eqn:E; cbn.
    + apply Nat.eqb_eq in E. subst. auto.
    + apply Nat.eqb_neq in E. split; [reflexivity|]. exists owner. auto.
  - destruct lk as [owner|]; cbn; [|auto].
    destruct (Nat.eqb owner t) eqn:E; cbn.
    + apply Nat.eqb_eq in E. subst. auto.
    + apply Nat.eqb_neq in E. split; [reflexivity|]. exists owner. auto.
  - split; [reflexivity | discriminate].
Qed.

(** X6. Lock discipline of logger.py.  A method call or a timer firing
    during which no other thread takes the lock, and which starts with the
    lock free, has released the lock when it comes back, by returning or
    by raising; if it does not come back, the calling thread is blocked on
    the lock it holds itself; it does not end waiting for another thread.
    [flush] is the one method that gives the lock up in the middle: it
    takes it to copy and clear the buffer, posts without it, and takes it
    again only to put a failed batch back.  That second acquisition, made
    when the answer arrives, blocks exactly when the answer is a failure
    and the lock is held then: on the caller itself if it holds it, else
    waiting for the thread that does. *)
Theorem lock_is_released_or_self_held
        (name : string) (t : Tid) (pos : list Json) (kw : Dict)
        (now : string) (net : Response) (s : State) :
  lock s = None ->
  match Canonical.invoke name t pos kw now net s with
  | Returned _ s' | Raised _ s' => lock s' = None
  | Deadlock s' => lock s' = Some t
  | Waits _ => False
  end /\
  match Canonical.timer_fires t net s with
  | Returned _ s' | Raised _ s' => lock s' = None
  | Deadlock s' => lock s' = Some t
  | Waits _ => False
  end /\
  match Canonical.flush_begin t s with
  | Returned _ s' => lock s' = None
  | _ => False
  end /\
  forall (s1 : State) (logs : list Dict),
    match Canonical.flush_send t logs net s1 with
    | Returned _ s' | Raised _ s' =>
        lock s' = lock s1 /\ (failure net = true -> lock s1 = None)
    | Deadlock s' =>
        failure net = true /\ lock s1 = Some t /\ lock s' = Some t
    | Waits s' =>
        failure net = true /\
        exists owner, owner <> t /\ lock s1 = Some owner /\ lock s' = Some owner
    end.
Proof.
  intros H. split; [|split; [|split]].
  - apply (lock_ok_invoke t name pos kw now net s H).
  - apply (lock_ok_timer_fires t net s H).
  - rewrite flush_begin_free by exact H.
    destruct (buffer s); cbn; exact H.
  - intros s1 logs. apply flush_send_lock.
Qed.

Lemma lock_is_released_or_self_held_witness :
  let s := example_logger 1 in
  match Canonical.invoke "error" 3 [JStr "boom"] [] "t" (Status 200) s with
  | Returned _ s' | Raised _ s' => lock s' = None
  | Deadlock s' => lock s' = Some 3
  | Waits _ => False
  end /\
  match Canonical.timer_fires 3 (Status 200) s with
  | Returned _ s' | Raised _ s' => lock s' = None
  | Deadlock s' => lock s' = Some 3
  | Waits _ => False
  end /\
  match Canonical.flush_begin 3 s with
  | Returned _ s' => lock s' = None
  | _ => False
  end /\
  forall (s1 : State) (logs : list Dict),
    match Canonical.flush_send 3 logs (Status 200) s1 with
    | Returned _ s' | Raised _ s' =>
        lock s' = lock s1 /\ (failure (Status 200) = true -> lock s1 = None)
    | Deadlock s' =>
        failure (Status 200) = true /\ lock s1 = Some 3 /\ lock s' = Some 3
    | Waits s' =>
        failure (Status 200) = true /\
        exists owner, owner <> 3 /\ lock s1 = Some owner /\ lock s' = Some owner
    end.
Proof.
  apply (lock_is_released_or_self_held "error" 3 [JStr "boom"] [] "t"
           (Status 200) (example_logger 1)).
  reflexivity.
Defined.

(** a flush whose answer is a failure finds the lock taken by a thread that
    is stuck: it waits, although it started with the lock free *)
Example flush_ends_waiting :
  let s0 := set_buffer [[("message", JStr "a")]] (example_logger 2) in
  exists logs s1 s2 s3,
    Canonical.flush_begin 1 s0 = Returned (Some logs) s1 /\
    (Canonical.info 2 [JStr "b"] [] "t1" (Status 200) ;;;
     Canonical.info 2 [JStr "c"] [] "t2" (Status 200)) s1 = Deadlock s2 /\
    Canonical.flush_send 1 logs (Status 500) s2 = Waits s3 /\
    lock s3 = Some 2.
Proof.
  cbv zeta. do 4 eexists.
  split; [vm_compute; reflexivity|].
  split; [vm_compute; reflexivity|].
  split; [vm_compute; reflexivity|]. reflexivity.
Qed.

(** X7. Once a call of [log] has reached [batch_size], the logger takes
    nothing more: the caller is stuck holding the lock, and every later
    [log] or [flush] of any other thread waits for that lock without
    appending or sending anything. *)
Theorem threshold_call_blocks_everyone
        (t t' : Tid) (net net' : Response) (s : State)
        (l l' : string) (m m' : Json) (ctx ctx' : Dict) (now now' : string) :
  lock s = None ->
  (batch_size s <= Z.of_nat (length (buffer s)) + 1)%Z ->
  t' <> t ->
  exists s',
    Canonical.log t (JStr l) m ctx now net s = Deadlock s' /\
    Canonical.log t' (JStr l') m' ctx' now' net' s' = Waits s' /\
    Canonical.flush t' net' s' = Waits s' /\
    sent s' = sent s.
Proof.
  intros Hl Hb Ht.
  rewrite (log_threshold_outcome t net s l m ctx now Hl Hb).
  eexists. split; [reflexivity|].
  assert (E : Nat.eqb t t' = false) by (apply Nat.eqb_neq; congruence).
  unfold Canonical.log, Canonical.flush, Canonical.flush_begin, with_lock,
    acquire, bind, get. cbn. rewrite E. auto.
Qed.

Lemma threshold_call_blocks_everyone_witness :
  let s := example_logger 1 in
  exists s',
    Canonical.log 1 (JStr "info") (JStr "a") [] "t1" (Status 200) s = Deadlock s' /\
    Canonical.log 2 (JStr "info") (JStr "b") [] "t2" (Status 200) s' = Waits s' /\
    Canonical.flush 2 (Status 200) s' = Waits s' /\
    sent s' = sent s.
Proof.
  apply (threshold_call_blocks_everyone 1 2 (Status 200) (Status 200)
           (example_logger 1) "info" "info" (JStr "a") (JStr "b") [] [] "t1" "t2").
  - reflexivity.
  - vm_compute. discriminate.
  - discriminate.
Defined.

(** ** What every execution keeps *)

Section Preservation.

Variable I : State -> Prop.
Hypothesis I_lock : forall l s, I s -> I (set_lock l s).
Hypothesis I_buffer : forall b s, I s -> I (set_buffer b s).
Hypothesis I_timer : forall d s, I s -> I (set_timer d s).
Hypothesis I_clock : forall c s, I s -> I (set_clock c s).
Hypothesis I_diag : forall d s, I s -> I (add_diag d s).
Hypothesis I_sent :
  forall s logs net, logs <> [] -> I s ->
                     I (add_sent (Canonical.make_request s logs) net s).

Lemma preserves_bind {A B} (m : M A) (k : A -> M B) :
  preserves I m -> (forall a, preserves I (k a)) -> preserves I (bind m k).
Proof.
  intros Hm Hk s H. unfold bind. specialize (Hm s H).
  destruct (m s) as [a s' | e s' | s' | s']; cbn in *; auto.
  apply Hk, Hm.
Qed.

Lemma preserves_with_lock {A} (t : Tid) (body : M A) :
  preserves I body -> preserves I (with_lock t body).
Proof.
  intros Hb s H. unfold with_lock, acquire.
  destruct (lock s) as [owner|].
  - destruct (Nat.eqb owner t); exact H.
  - specialize (Hb (set_lock (Some t) s) (I_lock _ _ H)).
    destruct (body (set_lock (Some t) s)); cbn in *; auto.
Qed.

Lemma preserves_requeue (t : Tid) (logs : list Dict) :
  preserves I (Canonical.requeue t logs).
Proof. apply preserves_with_lock. intros s H. cbn. auto. Qed.

Lemma preserves_flush_send (t : Tid) (logs : list Dict) (net : Response) :
  logs <> [] -> preserves I (Canonical.flush_send t logs net).
Proof.
  intros Hn s H. unfold Canonical.flush_send, bind, get, modify.
  pose proof (I_sent s logs net Hn H) as H1.
  destruct net as [code | msg | msg].
  - destruct (Canonical.success code); [exact H1|].
    apply preserves_requeue. cbn. auto.
  - apply preserves_requeue. cbn. auto.
  - exact H1.
Qed.

Lemma preserves_flush (t : Tid) (net : Response) :
  preserves I (Canonical.flush t net).
Proof.
  intros s H. unfold Canonical.flush, bind, Canonical.flush_begin, with_lock,
    acquire.
  destruct (lock s) as [owner|] eqn:El.
  - destruct (Nat.eqb owner t); exact H.
  - unfold get, bind, ret, modify. cbn [buffer set_lock].
    destruct (buffer s) as [|e b] eqn:Eb.
    + cbn. auto.
    + apply preserves_flush_send; [discriminate|]. auto.
Qed.

Lemma preserves_log (t : Tid) (level message : Json) (context : Dict)
      (now : string) (net : Response) :
  preserves I (Canonical.log t level message context now net).
Proof.
  unfold Canonical.log. destruct level as [| | |l| |]; try (intros s H; exact H).
  apply preserves_bind; [intros s H; exact H|]. intros s0.
  apply preserves_with_lock, preserves_bind.
  - intros s H. cbn. auto.
  - intros _. apply preserves_bind; [intros s H; exact H|]. intros s.
    destruct (batch_size s <=? _)%Z; [apply preserves_flush | intros s' H; exact H].
Qed.

Lemma preserves_call_log (t : Tid) (pos : list Json) (kw : Dict)
      (now : string) (net : Response) :
  preserves I (Canonical.call_log t pos kw now net).
Proof.
  unfold Canonical.call_log.
  destruct (bind_args _ _ _) as [e | [bound context]];
    [intros s H; exact H | apply preserves_log].
Qed.

Lemma preserves_convenience (L : string) (t : Tid) (pos : list Json) (kw : Dict)
      (now : string) (net : Response) :
  preserves I (Canonical.convenience L t pos kw now net).
Proof.
  unfold Canonical.convenience.
  destruct (bind_args _ _ _) as [e | [bound context]];
    [intros s H; exact H | apply preserves_call_log].
Qed.

Lemma preserves_start_timer : preserves I Canonical._start_timer.
Proof. intros s H. cbn. auto. Qed.

Lemma preserves_invoke (name : string) (t : Tid) (pos : list Json) (kw : Dict)
      (now : string) (net : Response) :
  preserves I (Canonical.invoke name t pos kw now net).
Proof.
  unfold Canonical.invoke, Canonical.debug, Canonical.info, Canonical.warn,
    Canonical.error.
  repeat match goal with
         | |- preserves _ (if ?b then _ else _) => destruct b
         | |- preserves _ (match ?x with _ => _ end) => destruct x
         end;
    auto using preserves_call_log, preserves_convenience, preserves_flush,
      preserves_start_timer;
    intros s H; exact H.
Qed.

Lemma preserves_timer_fires (t : Tid) (net : Response) :
  preserves I (Canonical.timer_fires t net).
Proof.
  intros s H. unfold Canonical.timer_fires.
  destruct (timer s) as [d|]; [|exact H].
  apply (preserves_bind (with_lock t _) (fun _ => Canonical._start_timer)).
  - apply preserves_with_lock, preserves_bind; [intros s' H'; exact H'|].
    intros s'. destruct (buffer s'); [intros s'' H'; exact H' | apply preserves_flush].
  - intros _. apply preserves_start_timer.
  - auto.
Qed.

Lemma api_reachable_preserves (s0 s : State) :
  api_reachable s0 s -> I s0 -> I s.
Proof.
  induction 1 as [|a b _ IH Hs]; intros H0; [exact H0|].
  destruct Hs; [apply preserves_invoke | apply preserves_timer_fires]; auto.
Qed.

End Preservation.

(** X8. Along every execution of logger.py made of method calls and timer
    firings, the configuration of the logger never changes, and every
    request ever issued is a POST of a non-empty batch to the logger's
    endpoint, with its bearer credential, its project slug and a timeout of
    10: an empty batch is never sent. *)
Theorem requests_are_well_formed (s0 s : State) :
  sent s0 = [] ->
  api_reachable s0 s ->
  same_config s0 s /\
  forall r a, In (r, a) (sent s) ->
    req_logs r <> [] /\
    req_url r = (api_url s0 ++ "/api/logs/batch")%string /\
    req_headers r = [("Content-Type", "application/json");
                     ("Authorization", ("Bearer " ++ api_key s0)%string)] /\
    req_project_slug r = project_slug s0 /\
    req_timeout r = 10%Z.
Proof.
  intros H0 Hr.
  assert (Hs : sound s0 s).
  { refine (api_reachable_preserves (sound s0) _ _ _ _ _ _ s0 s Hr _).
    - intros l x H. exact H.
    - intros b x H. exact H.
    - intros d x H. exact H.
    - intros c x H. exact H.
    - intros d x H. exact H.
    - intros x logs net Hn [Hc Hf]. split; [exact Hc|]. cbn.
      apply Forall_app. split; [exact Hf|].
      constructor; [|constructor]. split; [|exact Hn]. cbn.
      destruct Hc as (E1 & E2 & E3 & E4 & E5 & E6).
      unfold Canonical.make_request, Canonical.endpoint, Canonical.headers.
      rewrite E1, E2, E3. reflexivity.
    - split; [repeat split|]. rewrite H0. constructor. }
  destruct Hs as [Hc Hf]. split; [exact Hc|].
  intros r a Hin. rewrite Forall_forall in Hf.
  destruct (Hf (r, a) Hin) as [E Hn]. cbn in E, Hn.
  split; [exact Hn|]. rewrite E. cbn. auto.
Qed.

Lemma requests_are_well_formed_witness :
  let s0 := example_logger 100 in
  let s := final_state (Canonical.invoke "flush" 1 [] [] "t2" (Status 200)
             (final_state (Canonical.invoke "info" 1 [JStr "hello"] [] "t1"
                             (Status 200) s0))) in
  same_config s0 s /\
  forall r a, In (r, a) (sent s) ->
    req_logs r <> [] /\
    req_url r = (api_url s0 ++ "/api/logs/batch")%string /\
    req_headers r = [("Content-Type", "application/json");
                     ("Authorization", ("Bearer " ++ api_key s0)%string)] /\
    req_project_slug r = project_slug s0 /\
    req_timeout r = 10%Z.
Proof.
  apply (requests_are_well_formed (example_logger 100)).
  - reflexivity.
  - eapply api_reach_step; [eapply api_reach_step; [apply api_reach_init|]|];
      apply api_call.
Defined.

(** ** Idle timer, keyword binding *)



Section FreeKeywords.

Variable params : list string.

(** keywords that name no parameter are collected, in order *)
Lemma bind_keywords_free (kw bound context : Dict) :
  forallb (fun k => negb (mem k params)) (dict_keys kw) = true ->
  bind_keywords params bound context kw = inr (bound, context ++ kw).
Proof.
  revert context. induction kw as [|[k v] kw IH]; intros context H.
  - cbn. rewrite app_nil_r. reflexivity.
  - cbn in H. apply andb_true_iff in H. destruct H as [Hk H].
    cbn [bind_keywords]. apply negb_true_iff in Hk. rewrite Hk.
    rewrite IH by exact H. rewrite <- app_assoc. reflexivity.
Qed.

End FreeKeywords.

Lemma forallb_weaken {A} (f g : A -> bool) (l : list A) :
  (forall x, f x = true -> g x = true) ->
  forallb f l = true -> forallb g l = true.
Proof.
  intros H. induction l as [|x l IH]; cbn; [auto|].
  intros E. apply andb_true_iff in E. destruct E as [E1 E2].
  rewrite (H x E1), (IH E2). reflexivity.
Qed.

(** X10. With keywords that name none of [self], [level], [message], a
    convenience method is the corresponding call of [log]: the keywords
    become the entry's context in the order given, and the level may be
    written in any case ([logger.info(m)] does what [logger.log("info", m)]
    and [logger.log("INFO", m)] do). *)
Theorem convenience_is_log
        (L l : string) (t : Tid) (m : Json) (kw : Dict) (now : string)
        (net : Response) (s : State) :
  forallb (fun k => negb (mem k ["self"; "level"; "message"])) (dict_keys kw) = true ->
  upper l = upper L ->
  Canonical.convenience L t [m] kw now net s =
  Canonical.log t (JStr L) m kw now net s /\
  Canonical.call_log t [JStr l; m] kw now net s =
  Canonical.convenience L t [m] kw now net s.
Proof.
  intros Hk Hu.
  assert (Hk' : forallb (fun k => negb (mem k ["self"; "message"]))
                        (dict_keys kw) = true).
  { revert Hk. apply forallb_weaken. intros k.
    unfold mem. cbn. destruct (String.eqb k "self"), (String.eqb k "level"),
      (String.eqb k "message"); cbn; auto. }
  assert (E1 : forall x, Canonical.call_log t [JStr x; m] kw now net s =
                         Canonical.log t (JStr x) m kw now net s).
  { intros x. unfold Canonical.call_log, bind_args. cbn [bind_positional].
    rewrite bind_keywords_free by exact Hk. reflexivity. }
  assert (E2 : Canonical.convenience L t [m] kw now net s =
               Canonical.call_log t [JStr L; m] kw now net s).
  { unfold Canonical.convenience, bind_args. cbn [bind_positional].
    rewrite bind_keywords_free by exact Hk'. reflexivity. }
  split.
  - rewrite E2. apply E1.
  - rewrite E2, !E1. unfold Canonical.log, Canonical.make_entry.
    rewrite Hu. reflexivity.
Qed.

Lemma convenience_is_log_witness :
  let s := example_logger 100 in
  let kw := [("user_id", JInt 123)] in
  Canonical.convenience "INFO" 1 [JStr "User logged in"] kw "t" (Status 200) s =
  Canonical.log 1 (JStr "INFO") (JStr "User logged in") kw "t" (Status 200) s /\
  Canonical.call_log 1 [JStr "info"; JStr "User logged in"] kw "t" (Status 200) s =
  Canonical.convenience "INFO" 1 [JStr "User logged in"] kw "t" (Status 200) s.
Proof.
  apply (convenience_is_log "INFO" "info" 1 (JStr "User logged in")
           [("user_id", JInt 123)] "t" (Status 200) (example_logger 100)).
  - reflexivity.
  - reflexivity.
Defined.

(** * Further properties of the sample application's copy *)

Lemma sample_log_below_threshold
      (t : Tid) (net : Response) (s : State) (level message context tags : Json)
      (now : string) (clk : Z) :
  lock s = None ->
  (Z.of_nat (length (buffer s)) + 1 < batch_size s)%Z ->
  SampleApp._log t level message context tags now clk net s =
  Returned tt
    (set_timer (Some (clk + flush_interval s)%Z)
       (set_buffer (buffer s ++ [SampleApp.make_entry now level message
                                   (service_name s) context tags]) s)).
Proof.
  intros Hl Hb. unfold SampleApp._log, with_lock, acquire, bind, get, modify,
    SampleApp._schedule_flush.
  rewrite Hl. cbn [lock buffer batch_size set_buffer set_lock service_name].
  rewrite length_app. cbn [length].
  replace (batch_size s <=? Z.of_nat (length (buffer s) + 1))%Z with false
    by (symmetry; apply Z.leb_gt; lia).
  destruct s; cbn in *; subst; reflexivity.
Qed.

(** X11. In the sample application's copy [flush] never raises and never
    puts anything back: with the lock free it returns whatever the answer
    (a status, a transport failure or any other exception), the buffer is
    empty afterwards, and the only request, if the buffer held entries, was
    one POST of the whole buffer to [api_url] as given, with a timeout of
    5. *)
Theorem sample_flush_swallows_everything
        (t : Tid) (net : Response) (s : State) :
  lock s = None ->
  exists s',
    SampleApp.flush t net s = Returned tt s' /\
    buffer s' = [] /\ lock s' = None /\
    sent s' =
      match buffer s with
      | [] => sent s
      | batch => sent s ++ [(mkRequest (api_url s)
                               [("Content-Type", "application/json");
                                ("Authorization", ("Bearer " ++ api_key s)%string)]
                               (project_slug s) batch 5, net)]
      end.
Proof.
  intros Hl.
  destruct s as [k u p sv B I buf lk tm sn dg ck ah]; cbn in *; subst.
  destruct buf as [|e buf]; [eexists; repeat split; reflexivity|].
  destruct net as [c | m | m]; unfold_py; cbn;
    try destruct (SampleApp.urlopen_returns c);
    eexists; repeat split; reflexivity.
Qed.

Lemma sample_flush_swallows_everything_witness :
  let s := set_buffer [[("message", JStr "hello")]]
             (SampleApp.init "http://localhost:3000/x/" "key" "p" "svc" 100 5 0) in
  exists s',
    SampleApp.flush 1 (Unexpected "boom") s = Returned tt s' /\
    buffer s' = [] /\ lock s' = None /\
    sent s' =
      match buffer s with
      | [] => sent s
      | batch => sent s ++ [(mkRequest (api_url s)
                               [("Content-Type", "application/json");
                                ("Authorization", ("Bearer " ++ api_key s)%string)]
                               (project_slug s) batch 5, Unexpected "boom")]
      end.
Proof.
  apply (sample_flush_swallows_everything 1 (Unexpected "boom")
           (set_buffer [[("message", JStr "hello")]]
              (SampleApp.init "http://localhost:3000/x/" "key" "p" "svc" 100 5 0))).
  reflexivity.
Defined.



(** the timer of the example is due at 9 + 5, not at 0 + 5 *)
Example sample_timer_follows_last_call :
  timer (final_state
           (sample_log_each
              [(1, JStr "INFO", JStr "a", JNull, JNull, "t1", 2%Z);
               (2, JStr "WARN", JStr "b", JObj [], JList [JStr "x"], "t2", 9%Z)]
              (Status 200)
              (SampleApp.init "http://localhost:3000/x" "key" "p" "svc" 100 5 0))) =
  Some 14%Z.
Proof. reflexivity. Qed.

(** * Properties of the Flask extension *)

Section DictSet.

Context {V : Type}.

Lemma dict_set_fresh (k : string) (v : V) (d : list (string * V)) :
  ~ In k (map fst d) -> dict_set k v d = d ++ [(k, v)].
Proof.
  induction d as [|[k' v'] d IH]; cbn; intros H; [reflexivity|].
  destruct (String.eqb k k') eqn:E.
  - apply String.eqb_eq in E. subst. tauto.
  - rewrite IH by tauto. reflexivity.
Qed.

(** inserting a dictionary's items one by one, each through [g], into a
    dictionary that has none of its keys *)
Lemma fold_dict_set (f : list (string * V) -> string * V -> list (string * V))
      (g : string * V -> V) (l acc : list (string * V)) :
  (forall d kv, f d kv = dict_set (fst kv) (g kv) d) ->
  NoDup (map fst l) ->
  (forall k, In k (map fst l) -> ~ In k (map fst acc)) ->
  fold_left f l acc = acc ++ map (fun kv => (fst kv, g kv)) l.
Proof.
  intros Hf. revert acc. induction l as [|[k v] l IH]; intros acc Hn Ha; cbn.
  - rewrite app_nil_r. reflexivity.
  - inversion Hn as [|? ? Hk Hn']; subst.
    rewrite Hf. cbn [fst].
    rewrite dict_set_fresh by (apply Ha; left; reflexivity).
    rewrite IH; [rewrite <- app_assoc; reflexivity | exact Hn' |].
    intros k' Hin. rewrite map_app, in_app_iff. cbn.
    intros [H | [H | []]].
    + apply (Ha k'); [right; exact Hin | exact H].
    + subst. contradiction.
Qed.

End DictSet.

Lemma redact_headers_is_map (ext : FlaskIntegration.Ext) (headers : Headers) :
  NoDup (map fst headers) ->
  FlaskIntegration._redact_headers ext headers = map (redact_one ext) headers.
Proof.
  intros Hn. unfold FlaskIntegration._redact_headers.
  rewrite (fold_dict_set _ (fun kv => snd (redact_one ext kv))).
  - reflexivity.
  - intros d kv. unfold redact_one. cbn.
    destruct (mem (lower (fst kv)) (FlaskIntegration.redact_headers ext));
      reflexivity.
  - exact Hn.
  - intros k _ [].
Qed.

Lemma lower_ascii_idempotent (c : ascii) :
  lower_ascii (lower_ascii c) = lower_ascii c.
Proof.
  destruct c as [[] [] [] [] [] [] [] []]; reflexivity.
Qed.

Lemma lower_idempotent (s : string) : lower (lower s) = lower s.
Proof.
  induction s as [|c s IH]; cbn; [reflexivity|].
  rewrite lower_ascii_idempotent, IH. reflexivity.
Qed.

Lemma redact_one_idempotent (ext : FlaskIntegration.Ext) (kv : string * string) :
  redact_one ext (redact_one ext kv) = redact_one ext kv.
Proof.
  unfold redact_one. cbn.
  destruct (mem (lower (fst kv)) (FlaskIntegration.redact_headers ext));
    reflexivity.
Qed.

(** X13. [_redact_headers] of the Flask extension, on a dictionary of
    headers: the header names and their order are kept; the value of every
    header whose lower-cased name is in the redact list is "[REDACTED]",
    every other header is kept as it is; redacting twice changes nothing
    more. *)
Theorem redaction_contract (ext : FlaskIntegration.Ext) (headers : Headers) :
  NoDup (map fst headers) ->
  let r := FlaskIntegration._redact_headers ext headers in
  map fst r = map fst headers /\
  (forall k v, In (k, v) r ->
     if mem (lower k) (FlaskIntegration.redact_headers ext)
     then v = "[REDACTED]" else In (k, v) headers) /\
  (forall k v, In (k, v) headers ->
     In (k, if mem (lower k) (FlaskIntegration.redact_headers ext)
            then "[REDACTED]" else v) r) /\
  FlaskIntegration._redact_headers ext r = r.
Proof.
  intros Hn r. subst r. rewrite redact_headers_is_map by exact Hn.
  assert (Hk : map fst (map (redact_one ext) headers) = map fst headers).
  { rewrite map_map. reflexivity. }
  split; [exact Hk|]. split; [|split].
  - intros k v Hin. apply in_map_iff in Hin.
    destruct Hin as ([k' v'] & E & Hin). unfold redact_one in E. cbn in E.
    inversion E; subst; clear E.
    destruct (mem (lower k) (FlaskIntegration.redact_headers ext)); auto.
  - intros k v Hin. apply in_map_iff. exists (k, v). split; [reflexivity | exact Hin].
  - rewrite redact_headers_is_map by (rewrite Hk; exact Hn).
    rewrite map_map. apply map_ext. intros kv. apply redact_one_idempotent.
Qed.

Lemma redaction_contract_witness :
  let ext := FlaskIntegration.default_ext in
  let headers := [("Host", "example.org"); ("Authorization", "Bearer secret");
                  ("X-API-Key", "k")] in
  let r := FlaskIntegration._redact_headers ext headers in
  map fst r = map fst headers /\
  (forall k v, In (k, v) r ->
     if mem (lower k) (FlaskIntegration.redact_headers ext)
     then v = "[REDACTED]" else In (k, v) headers) /\
  (forall k v, In (k, v) headers ->
     In (k, if mem (lower k) (FlaskIntegration.redact_headers ext)
            then "[REDACTED]" else v) r) /\
  FlaskIntegration._redact_headers ext r = r.
Proof.
  apply (redaction_contract FlaskIntegration.default_ext
           [("Host", "example.org"); ("Authorization", "Bearer secret");
            ("X-API-Key", "k")]).
  cbn. repeat constructor; cbn; intuition discriminate.
Defined.

(** X14. The redact list is compared with the lower-cased header name and
    is itself used as configured: an entry of the list that is not in
    lower case matches no header, so with a list made of such entries
    (say ["Authorization"]) the headers are logged unredacted. *)
Theorem mixed_case_redact_list_redacts_nothing
        (ext : FlaskIntegration.Ext) (headers : Headers) :
  NoDup (map fst headers) ->
  Forall (fun name => lower name <> name) (FlaskIntegration.redact_headers ext) ->
  FlaskIntegration._redact_headers ext headers = headers.
Proof.
  intros Hn Hf. rewrite redact_headers_is_map by exact Hn.
  rewrite <- (map_id headers) at 2. apply map_ext.
  intros [k v]. unfold redact_one. cbn.
  replace (mem (lower k) (FlaskIntegration.redact_headers ext)) with false;
    [reflexivity|].
  symmetry. unfold mem.
  induction Hf as [|name l Hname _ IH]; cbn; [reflexivity|].
  rewrite IH, orb_false_r.
  apply String.eqb_neq. intros E. apply Hname.
  rewrite <- E. apply lower_idempotent.
Qed.

Lemma mixed_case_redact_list_redacts_nothing_witness :
  let ext := FlaskIntegration.mkExt false [] ["Authorization"; "Cookie"] in
  let headers := [("Authorization", "Bearer secret"); ("cookie", "sid=1")] in
  FlaskIntegration._redact_headers ext headers = headers.
Proof.
  apply (mixed_case_redact_list_redacts_nothing
           (FlaskIntegration.mkExt false [] ["Authorization"; "Cookie"])
           [("Authorization", "Bearer secret"); ("cookie", "sid=1")]).
  - cbn. repeat constructor; cbn; intuition discriminate.
  - repeat constructor; cbn; discriminate.
Defined.

(** a convenience method called with keywords that clash with nothing, on a
    logger with a free lock and room in the buffer *)
Lemma convenience_appends
      (L : string) (t : Tid) (m : Json) (kw : Dict) (now : string)
      (net : Response) (s : State) :
  forallb (fun k => negb (mem k ["self"; "level"; "message"])) (dict_keys kw) = true ->
  lock s = None ->
  (Z.of_nat (length (buffer s)) + 1 < batch_size s)%Z ->
  Canonical.convenience L t [m] kw now net s =
  Returned tt (set_buffer
                 (buffer s ++ [Canonical.make_entry now L m (service_name s) kw]) s).
Proof.
  intros Hk Hl Hb.
  assert (Hk' : forallb (fun k => negb (mem k ["self"; "message"]))
                        (dict_keys kw) = true).
  { revert Hk. apply forallb_weaken. intros k.
    unfold mem. cbn. destruct (String.eqb k "self"), (String.eqb k "level"),
      (String.eqb k "message"); cbn; auto. }
  unfold Canonical.convenience, bind_args. cbn [bind_positional].
  rewrite bind_keywords_free by exact Hk'. cbn [forallb dict_has dict_get
    String.eqb Ascii.eqb Bool.eqb andb arg].
  unfold Canonical.call_log, bind_args. cbn [bind_positional].
  rewrite bind_keywords_free by exact Hk.
  cbn -[Canonical.log]. apply log_below_threshold; assumption.
Qed.

(** X15. [_after_request] of the Flask extension, on a logger with a free
    lock and room in its buffer: for a path in [skip_paths] nothing is
    logged; otherwise (bodies not logged) exactly one entry is appended,
    at level ERROR for a status of 500 and above, WARN for 400 to 499 and
    INFO below, with the message "METHOD PATH STATUS DURATIONms" and a
    context that holds the redacted request and response headers; in both
    cases the response is returned as it came and nothing is sent. *)
Theorem after_request_logs_by_status
        (decode : string -> Exn + list string) (ext : FlaskIntegration.Ext)
        (rq : FlaskRequest) (rs : FlaskResponse) (duration_ms : Z)
        (t : Tid) (now : string) (net : Response) (s : State) :
  lock s = None ->
  (Z.of_nat (length (buffer s)) + 1 < batch_size s)%Z ->
  (mem (rq_path rq) (FlaskIntegration.skip_paths ext) = true ->
   FlaskIntegration._after_request decode ext rq rs duration_ms t now net s =
   Returned rs s) /\
  (mem (rq_path rq) (FlaskIntegration.skip_paths ext) = false ->
   FlaskIntegration.log_body ext = false ->
   exists e,
     FlaskIntegration._after_request decode ext rq rs duration_ms t now net s =
     Returned rs (set_buffer (buffer s ++ [e]) s) /\
     dict_get "level" e = Some (JStr (entry_level_of_status (rs_status_code rs))) /\
     dict_get "message" e =
       Some (JStr (FlaskIntegration.request_line rq rs duration_ms)) /\
     dict_get "context" e =
       Some (JObj (FlaskIntegration.base_context ext rq rs duration_ms)) /\
     dict_get "request_headers" (FlaskIntegration.base_context ext rq rs duration_ms) =
       Some (json_of_headers (FlaskIntegration._redact_headers ext (rq_headers rq)))).
Proof.
  intros Hl Hb. unfold FlaskIntegration._after_request. split.
  - intros Hs. rewrite Hs. reflexivity.
  - intros Hs Hbody. rewrite Hs.
    unfold FlaskIntegration.full_context. rewrite Hbody.
    unfold FlaskIntegration.level_of_status, entry_level_of_status,
      Canonical.error, Canonical.warn, Canonical.info, bind.
    destruct (500 <=? rs_status_code rs)%Z; [|destruct (400 <=? rs_status_code rs)%Z];
      cbn [String.eqb Ascii.eqb Bool.eqb];
      rewrite convenience_appends by (reflexivity || assumption);
      eexists; (split; [reflexivity|]); repeat split.
Qed.

Lemma after_request_logs_by_status_witness :
  let decode := ascii_chars in
  let ext := FlaskIntegration.default_ext in
  let rq := mkFlaskRequest "GET" "/api/users" "get_users" [] (JStr "127.0.0.1")
                           JNull [("Authorization", "Bearer x")] "" in
  let rs := mkFlaskResponse 503 [] "" in
  let s := example_logger 100 in
  (mem (rq_path rq) (FlaskIntegration.skip_paths ext) = true ->
   FlaskIntegration._after_request decode ext rq rs 12 1 "t" (Status 200) s =
   Returned rs s) /\
  (mem (rq_path rq) (FlaskIntegration.skip_paths ext) = false ->
   FlaskIntegration.log_body ext = false ->
   exists e,
     FlaskIntegration._after_request decode ext rq rs 12 1 "t" (Status 200) s =
     Returned rs (set_buffer (buffer s ++ [e]) s) /\
     dict_get "level" e = Some (JStr (entry_level_of_status (rs_status_code rs))) /\
     dict_get "message" e =
       Some (JStr (FlaskIntegration.request_line rq rs 12)) /\
     dict_get "context" e =
       Some (JObj (FlaskIntegration.base_context ext rq rs 12)) /\
     dict_get "request_headers" (FlaskIntegration.base_context ext rq rs 12) =
       Some (json_of_headers (FlaskIntegration._redact_headers ext (rq_headers rq)))).
Proof.
  apply (after_request_logs_by_status ascii_chars
           FlaskIntegration.default_ext
           (mkFlaskRequest "GET" "/api/users" "get_users" [] (JStr "127.0.0.1")
                           JNull [("Authorization", "Bearer x")] "")
           (mkFlaskResponse 503 [] "") 12 1 "t" (Status 200) (example_logger 100)).
  - reflexivity.
  - reflexivity.
Defined.

Lemma dict_get_set_same (k : string) (v : Json) (d : Dict) :
  dict_get k (dict_set k v d) = Some v.
Proof.
  induction d as [|[k' v'] d IH]; cbn.
  - rewrite String.eqb_refl. reflexivity.
  - destruct (String.eqb k k') eqn:E; cbn; rewrite E; auto.
Qed.

Lemma dict_get_set_other (k k' : string) (v : Json) (d : Dict) :
  k <> k' -> dict_get k (dict_set k' v d) = dict_get k d.
Proof.
  intros Hn. induction d as [|[k'' v''] d IH]; cbn.
  - apply String.eqb_neq in Hn. rewrite Hn. reflexivity.
  - destruct (String.eqb k' k'') eqn:E; cbn.
    + apply String.eqb_eq in E. subst k''.
      apply String.eqb_neq in Hn. rewrite Hn. reflexivity.
    + rewrite IH. reflexivity.
Qed.

(** the body that [add_body] stores under [key], if it stores one *)
Lemma add_body_bounded (decode : string -> Exn + list string) (key data : string)
      (context context' : Dict) (k : string) (v : Json) :
  FlaskIntegration.add_body decode key data context = inr context' ->
  dict_get k context' = Some v ->
  dict_get k context = Some v \/
  (k = key /\ data <> "" /\
   exists chars, decode data = inr chars /\
                 v = JStr (FlaskIntegration.text_of (firstn 1000 chars))).
Proof.
  unfold FlaskIntegration.add_body. intros H Hg.
  destruct data as [|c data]; cbn in H.
  - inversion H; subst. left. exact Hg.
  - destruct (decode (String c data)) as [e | chars] eqn:Ed; [discriminate|].
    inversion H; subst; clear H.
    destruct (String.eqb k key) eqn:E.
    + apply String.eqb_eq in E. subst k. rewrite dict_get_set_same in Hg.
      inversion Hg; subst. right. split; [reflexivity|]. split; [discriminate|].
      exists chars. split; reflexivity.
    + apply String.eqb_neq in E. rewrite dict_get_set_other in Hg by exact E.
      left. exact Hg.
Qed.

(** X16. With [log_body] on, [_after_request] of the Flask extension
    decodes the bodies as UTF-8 before logging them.  A body found in the
    context is the text of the first 1000 characters of the decoded data
    (all of them if there are fewer), counted in characters and not in
    bytes, and none is stored for empty data; if the request body is not
    valid UTF-8 the decoding error leaves [_after_request] as an exception
    and nothing is logged. *)
Theorem logged_bodies_are_decoded_and_bounded
        (decode : string -> Exn + list string) (ext : FlaskIntegration.Ext)
        (rq : FlaskRequest) (rs : FlaskResponse) (duration_ms : Z)
        (t : Tid) (now : string) (net : Response) (s : State) :
  FlaskIntegration.log_body ext = true ->
  mem (rq_path rq) (FlaskIntegration.skip_paths ext) = false ->
  (forall context key v,
      FlaskIntegration.full_context decode ext rq rs duration_ms = inr context ->
      key = "request_body" \/ key = "response_body" ->
      dict_get key context = Some v ->
      let data := if String.eqb key "request_body"
                  then rq_data rq else rs_data rs in
      data <> "" /\
      exists chars,
        decode data = inr chars /\
        v = JStr (FlaskIntegration.text_of (firstn 1000 chars)) /\
        (length (firstn 1000 chars) <= 1000)%nat) /\
  (forall e, rq_data rq <> "" -> decode (rq_data rq) = inl e ->
             FlaskIntegration._after_request decode ext rq rs duration_ms
                                             t now net s = Raised e s).
Proof.
  intros Hb Hs. split.
  - intros context key v H Hk Hg.
    unfold FlaskIntegration.full_context in H. rewrite Hb in H.
    destruct (FlaskIntegration.add_body decode "request_body" (rq_data rq) _)
      as [e | c1] eqn:E1; [discriminate|].
    destruct (add_body_bounded _ _ _ _ _ _ _ H Hg)
      as [Hg1 | (-> & Hd & chars & Hc & ->)].
    + destruct (add_body_bounded _ _ _ _ _ _ _ E1 Hg1)
        as [Hg0 | (-> & Hd & chars & Hc & ->)].
      * destruct Hk as [-> | ->]; cbn in Hg0; discriminate.
      * cbv zeta. cbn [String.eqb Ascii.eqb Bool.eqb]. split; [exact Hd|].
        exists chars.
        split; [exact Hc|]. split; [reflexivity | apply firstn_le_length].
    + cbv zeta. cbn [String.eqb Ascii.eqb Bool.eqb]. split; [exact Hd|].
      exists chars.
      split; [exact Hc|]. split; [reflexivity | apply firstn_le_length].
  - intros e Hd He. unfold FlaskIntegration._after_request. rewrite Hs.
    unfold FlaskIntegration.full_context, FlaskIntegration.add_body.
    rewrite Hb. destruct (rq_data rq) as [|c d]; [congruence|]. cbn [is_empty].
    rewrite He. reflexivity.
Qed.

Lemma logged_bodies_are_decoded_and_bounded_witness :
  let decode := fun b : string =>
                  if String.eqb b "bad"
                  then @inl Exn (list string) (OtherError "UnicodeDecodeError")
                  else ascii_chars b in
  let ext := FlaskIntegration.mkExt true [] [] in
  let rq := mkFlaskRequest "POST" "/upload" "upload" [] JNull JNull [] "hello" in
  let rs := mkFlaskResponse 200 [] "ok" in
  let s := example_logger 100 in
  (forall context key v,
      FlaskIntegration.full_context decode ext rq rs 3 = inr context ->
      key = "request_body" \/ key = "response_body" ->
      dict_get key context = Some v ->
      let data := if String.eqb key "request_body"
                  then rq_data rq else rs_data rs in
      data <> "" /\
      exists chars,
        decode data = inr chars /\
        v = JStr (FlaskIntegration.text_of (firstn 1000 chars)) /\
        (length (firstn 1000 chars) <= 1000)%nat) /\
  (forall e, rq_data rq <> "" -> decode (rq_data rq) = inl e ->
             FlaskIntegration._after_request decode ext rq rs 3
                                             1 "t" (Status 200) s = Raised e s).
Proof.
  apply (logged_bodies_are_decoded_and_bounded
           (fun b : string =>
              if String.eqb b "bad"
              then @inl Exn (list string) (OtherError "UnicodeDecodeError")
              else ascii_chars b)
           (FlaskIntegration.mkExt true [] [])
           (mkFlaskRequest "POST" "/upload" "upload" [] JNull JNull [] "hello")
           (mkFlaskResponse 200 [] "ok") 3 1 "t" (Status 200) (example_logger 100)).
  - reflexivity.
  - reflexivity.
Defined.

(** a body of two-byte characters is cut after 1000 characters, that is
    after 2000 bytes: here after 3 characters of a 4-character text *)
Example body_slice_counts_characters :
  FlaskIntegration.text_of (firstn 3 ["h"; "é"; "l"; "é"]) = "hél".
Proof. reflexivity. Qed.

Lemma upper_ascii_idempotent (c : ascii) :
  upper_ascii (upper_ascii c) = upper_ascii c.
Proof.
  destruct c as [[] [] [] [] [] [] [] []]; reflexivity.
Qed.

Lemma upper_idempotent (s : string) : upper (upper s) = upper s.
Proof.
  induction s as [|c s IH]; cbn; [reflexivity|].
  rewrite upper_ascii_idempotent, IH. reflexivity.
Qed.

Section RouteDecorator.

Variables (rq : FlaskRequest) (d_ok d_err : Z) (str_of : Exn -> string)
          (traceback : string) (t : Tid) (now now' : string) (net : Response).

(** the [except] branch on a logger with a free lock and room: one ERROR
    entry, then the exception goes on *)
Lemma route_failed_logs_and_reraises (e : Exn) (s : State) :
  lock s = None ->
  (Z.of_nat (length (buffer s)) + 1 < batch_size s)%Z ->
  exists entry,
    FlaskIntegration.route_failed e rq d_err str_of traceback t now' net s =
    Raised e (set_buffer (buffer s ++ [entry]) s) /\
    dict_get "level" entry = Some (JStr "ERROR") /\
    dict_get "message" entry =
      Some (JStr ("Route " ++ rq_endpoint rq ++ " failed")%string).
Proof.
  intros Hl Hb. unfold FlaskIntegration.route_failed, Canonical.error, bind.
  rewrite convenience_appends by (reflexivity || assumption).
  eexists. repeat split.
Qed.

Lemma invoke_level_method (level : string) (m : Json) (kw : Dict) (s : State) :
  mem level level_methods = true ->
  Canonical.invoke level t [m] kw now net s =
  Canonical.convenience (upper level) t [m] kw now net s.
Proof.
  unfold mem, level_methods. cbn [existsb]. intros H.
  repeat (apply orb_true_iff in H; destruct H as [H | H]);
    try discriminate; apply String.eqb_eq in H; subst; reflexivity.
Qed.

Lemma invoke_unknown (name : string) (pos : list Json) (kw : Dict) (s : State) :
  mem name logger_methods = false ->
  mem name Canonical.data_attributes = false ->
  Canonical.invoke name t pos kw now net s =
  Raised (AttributeError
            ("'DevSmithLogger' object has no attribute '" ++ name ++ "'")) s.
Proof.
  unfold mem at 1, logger_methods. cbn [existsb]. intros H Hd.
  repeat (apply orb_false_iff in H; destruct H as [? H]).
  unfold Canonical.invoke.
  repeat match goal with
         | E : String.eqb name _ = false |- _ => rewrite E; clear E
         end.
  rewrite Hd. reflexivity.
Qed.

End RouteDecorator.

(** X17. A route wrapped by [log_route(logger, level)] with [level] one of
    debug, info, warn, error, on a logger that has a free lock and room
    after the route ran: if the route returns, its result is returned and
    exactly one entry "Route <endpoint> completed" is appended at that
    level; if the route raises, exactly one ERROR entry "Route <endpoint>
    failed" is appended and the same exception is raised again. *)
Theorem log_route_logs_outcome
        (level : string) (f : M Json) (rq : FlaskRequest) (d_ok d_err : Z)
        (str_of : Exn -> string) (traceback : string) (t : Tid)
        (now now' : string) (net : Response) (s s1 : State) :
  mem level level_methods = true ->
  lock s1 = None ->
  (Z.of_nat (length (buffer s1)) + 1 < batch_size s1)%Z ->
  (forall result, f s = Returned result s1 ->
     exists entry,
       FlaskIntegration.log_route level f rq d_ok d_err str_of traceback
                                  t now now' net s =
       Returned result (set_buffer (buffer s1 ++ [entry]) s1) /\
       dict_get "level" entry = Some (JStr (upper level)) /\
       dict_get "message" entry =
         Some (JStr ("Route " ++ rq_endpoint rq ++ " completed")%string)) /\
  (forall e, f s = Raised e s1 ->
     exists entry,
       FlaskIntegration.log_route level f rq d_ok d_err str_of traceback
                                  t now now' net s =
       Raised e (set_buffer (buffer s1 ++ [entry]) s1) /\
       dict_get "level" entry = Some (JStr "ERROR") /\
       dict_get "message" entry =
         Some (JStr ("Route " ++ rq_endpoint rq ++ " failed")%string)).
Proof.
  intros Hm Hl Hb. split.
  - intros result Hf. unfold FlaskIntegration.log_route. rewrite Hf.
    rewrite invoke_level_method by exact Hm.
    rewrite convenience_appends by (reflexivity || assumption).
    eexists. split; [reflexivity|]. split; [|reflexivity].
    cbn. rewrite (upper_idempotent level). reflexivity.
  - intros e Hf. unfold FlaskIntegration.log_route. rewrite Hf.
    apply route_failed_logs_and_reraises; assumption.
Qed.

Lemma log_route_logs_outcome_witness :
  let rq := mkFlaskRequest "GET" "/api/users" "get_users" [] JNull JNull [] "" in
  let f : M Json := ret (JList []) in
  let s := example_logger 100 in
  (forall result, f s = Returned result s ->
     exists entry,
       FlaskIntegration.log_route "warn" f rq 4 5 (fun _ => "boom") "tb"
                                  1 "t1" "t2" (Status 200) s =
       Returned result (set_buffer (buffer s ++ [entry]) s) /\
       dict_get "level" entry = Some (JStr (upper "warn")) /\
       dict_get "message" entry =
         Some (JStr ("Route " ++ rq_endpoint rq ++ " completed")%string)) /\
  (forall e, f s = Raised e s ->
     exists entry,
       FlaskIntegration.log_route "warn" f rq 4 5 (fun _ => "boom") "tb"
                                  1 "t1" "t2" (Status 200) s =
       Raised e (set_buffer (buffer s ++ [entry]) s) /\
       dict_get "level" entry = Some (JStr "ERROR") /\
       dict_get "message" entry =
         Some (JStr ("Route " ++ rq_endpoint rq ++ " failed")%string)).
Proof.
  apply (log_route_logs_outcome "warn" (ret (JList []))
           (mkFlaskRequest "GET" "/api/users" "get_users" [] JNull JNull [] "")
           4 5 (fun _ => "boom") "tb" 1 "t1" "t2" (Status 200)
           (example_logger 100) (example_logger 100)).
  - reflexivity.
  - reflexivity.
  - reflexivity.
Defined.

(** X18. [log_route(logger, level)] looks the level up on the logger only
    after the route has run.  With a [level] that names no attribute of the
    logger (say "warning": neither a method nor a data attribute of the
    class, nor one of the double-underscore names every object has), a
    route that returns normally still ends in an [AttributeError]: its
    result is dropped, one ERROR entry "Route <endpoint> failed" is
    appended and no "completed" entry is. *)
Theorem log_route_unknown_level_fails_the_route
        (level : string) (f : M Json) (rq : FlaskRequest) (d_ok d_err : Z)
        (str_of : Exn -> string) (traceback : string) (t : Tid)
        (now now' : string) (net : Response) (s s1 : State) (result : Json) :
  prefix "__" level = false ->
  mem level logger_methods = false ->
  mem level Canonical.data_attributes = false ->
  f s = Returned result s1 ->
  lock s1 = None ->
  (Z.of_nat (length (buffer s1)) + 1 < batch_size s1)%Z ->
  exists entry,
    FlaskIntegration.log_route level f rq d_ok d_err str_of traceback
                               t now now' net s =
    Raised (AttributeError
              ("'DevSmithLogger' object has no attribute '" ++ level ++ "'"))
           (set_buffer (buffer s1 ++ [entry]) s1) /\
    dict_get "level" entry = Some (JStr "ERROR") /\
    dict_get "message" entry =
      Some (JStr ("Route " ++ rq_endpoint rq ++ " failed")%string).
Proof.
  intros _ Hm Hd Hf Hl Hb. unfold FlaskIntegration.log_route. rewrite Hf.
  rewrite invoke_unknown by assumption.
  apply route_failed_logs_and_reraises; assumption.
Qed.

Lemma log_route_unknown_level_fails_the_route_witness :
  let rq := mkFlaskRequest "GET" "/api/users" "get_users" [] JNull JNull [] "" in
  let s := example_logger 100 in
  exists entry,
    FlaskIntegration.log_route "warning" (ret (JList [])) rq 4 5
                               (fun _ => "boom") "tb" 1 "t1" "t2" (Status 200) s =
    Raised (AttributeError
              ("'DevSmithLogger' object has no attribute '" ++ "warning" ++ "'"))
           (set_buffer (buffer s ++ [entry]) s) /\
    dict_get "level" entry = Some (JStr "ERROR") /\
    dict_get "message" entry =
      Some (JStr ("Route " ++ rq_endpoint rq ++ " failed")%string).
Proof.
  apply (log_route_unknown_level_fails_the_route "warning" (ret (JList []))
           (mkFlaskRequest "GET" "/api/users" "get_users" [] JNull JNull [] "")
           4 5 (fun _ => "boom") "tb" 1 "t1" "t2" (Status 200)
           (example_logger 100) (example_logger 100) (JList [])).
  - reflexivity.
  - reflexivity.
  - reflexivity.
  - reflexivity.
  - reflexivity.
  - reflexivity.
Defined.

(** * Properties of the sample application's extension *)

(** X19. The request hooks of the sample application ([DevSmithLogging]),
    on a logger with a free lock and room for two entries: for a path in
    [skip_paths] neither hook logs anything; otherwise the two hooks append
    "Incoming request" tagged [request] and "Request completed" tagged
    [response], in that order, the first one carrying the request headers
    exactly as received (nothing is redacted), and the response is returned
    unchanged; no request is sent to the collector. *)
Theorem sample_hooks_log_request_and_response
        (skip : list string) (rq : FlaskRequest) (rs : FlaskResponse)
        (duration : Z) (t : Tid) (now now' : string) (clk clk' : Z)
        (net : Response) (s : State) :
  lock s = None ->
  (Z.of_nat (length (buffer s)) + 2 < batch_size s)%Z ->
  (mem (rq_path rq) skip = true ->
   AppExtension._before_request skip rq t now clk net s = Returned tt s /\
   AppExtension._after_request skip rq rs duration t now' clk' net s =
   Returned rs s) /\
  (mem (rq_path rq) skip = false ->
   exists e1 e2 s',
     (AppExtension._before_request skip rq t now clk net ;;;
      AppExtension._after_request skip rq rs duration t now' clk' net) s =
     Returned rs s' /\
     buffer s' = buffer s ++ [e1; e2] /\
     sent s' = sent s /\
     dict_get "message" e1 = Some (JStr "Incoming request") /\
     dict_get "tags" e1 = Some (JList [JStr "request"]) /\
     (exists ctx, dict_get "context" e1 = Some (JObj ctx) /\
                  dict_get "headers" ctx = Some (json_of_headers (rq_headers rq))) /\
     dict_get "message" e2 = Some (JStr "Request completed") /\
     dict_get "tags" e2 = Some (JList [JStr "response"]) /\
     (exists ctx, dict_get "context" e2 = Some (JObj ctx) /\
                  dict_get "status_code" ctx = Some (JInt (rs_status_code rs)) /\
                  dict_get "duration_ms" ctx = Some (JInt duration))).
Proof.
  intros Hl Hb. unfold AppExtension._before_request, AppExtension._after_request.
  split; intros Hs; rewrite Hs.
  - split; reflexivity.
  - unfold SampleApp.info, bind.
    rewrite sample_log_below_threshold by (assumption || lia).
    rewrite sample_log_below_threshold
      by (cbn; try assumption; rewrite length_app; cbn; lia).
    do 3 eexists. split; [reflexivity|]. cbn.
    rewrite <- app_assoc. cbn.
    split; [reflexivity|]. split; [reflexivity|].
    repeat split; eexists; repeat split.
Qed.

Lemma sample_hooks_log_request_and_response_witness :
  let skip := ["/health"] in
  let rq := mkFlaskRequest "GET" "/" "root" [] JNull JNull
                           [("Authorization", "Bearer secret")] "" in
  let rs := mkFlaskResponse 200 [] "" in
  let s := SampleApp.init "http://localhost:3000/x" "key" "p" "svc" 100 5 0 in
  (mem (rq_path rq) skip = true ->
   AppExtension._before_request skip rq 1 "t1" 10 (Status 200) s = Returned tt s /\
   AppExtension._after_request skip rq rs 7 1 "t2" 17 (Status 200) s =
   Returned rs s) /\
  (mem (rq_path rq) skip = false ->
   exists e1 e2 s',
     (AppExtension._before_request skip rq 1 "t1" 10 (Status 200) ;;;
      AppExtension._after_request skip rq rs 7 1 "t2" 17 (Status 200)) s =
     Returned rs s' /\
     buffer s' = buffer s ++ [e1; e2] /\
     sent s' = sent s /\
     dict_get "message" e1 = Some (JStr "Incoming request") /\
     dict_get "tags" e1 = Some (JList [JStr "request"]) /\
     (exists ctx, dict_get "context" e1 = Some (JObj ctx) /\
                  dict_get "headers" ctx = Some (json_of_headers (rq_headers rq))) /\
     dict_get "message" e2 = Some (JStr "Request completed") /\
     dict_get "tags" e2 = Some (JList [JStr "response"]) /\
     (exists ctx, dict_get "context" e2 = Some (JObj ctx) /\
                  dict_get "status_code" ctx = Some (JInt (rs_status_code rs)) /\
                  dict_get "duration_ms" ctx = Some (JInt 7))).
Proof.
  apply (sample_hooks_log_request_and_response ["/health"]
           (mkFlaskRequest "GET" "/" "root" [] JNull JNull
                           [("Authorization", "Bearer secret")] "")
           (mkFlaskResponse 200 [] "") 7 1 "t1" "t2" 10 17 (Status 200)
           (SampleApp.init "http://localhost:3000/x" "key" "p" "svc" 100 5 0)).
  - reflexivity.
  - reflexivity.
Defined.

(** * Properties of the Doctor service *)

Section DoctorFixes.

Variable get_fix_by_id : string -> Exn + option Doctor.Fix.
Variable execute_fix :
  Doctor.Fix -> Exn + (bool * option string * option (list string)).
Variable log_fix_applied : Doctor.Fix -> bool -> option Exn.
Variable str_of : Doctor.Failure -> string.

Let apply_fix := Doctor.apply_fix get_fix_by_id execute_fix log_fix_applied str_of.
Let batch_loop := Doctor.batch_loop get_fix_by_id execute_fix log_fix_applied str_of.
Let apply_fixes_batch :=
  Doctor.apply_fixes_batch get_fix_by_id execute_fix log_fix_applied str_of.

Lemma apply_fix_idle (request : Doctor.FixRequest) (sys : Doctor.Sys) :
  Doctor.dry_run request = true \/ Doctor.auto_apply request = false ->
  snd (apply_fix request sys) = sys.
Proof.
  intros H. unfold apply_fix, Doctor.apply_fix, Doctor.apply_fix_body.
  destruct (get_fix_by_id (Doctor.fix_id request)) as [e | [fx|]]; cbn; auto.
  destruct (Doctor.dry_run request); cbn; auto.
  destruct H as [H | H]; [discriminate|]. rewrite H. reflexivity.
Qed.

Lemma apply_fix_not_auto (request : Doctor.FixRequest) (sys : Doctor.Sys) :
  Doctor.dry_run request = false -> Doctor.auto_apply request = false ->
  match fst (apply_fix request sys) with
  | inr r => Doctor.success r = false
  | inl _ => True
  end.
Proof.
  intros Hd Ha. unfold apply_fix, Doctor.apply_fix, Doctor.apply_fix_body.
  destruct (get_fix_by_id (Doctor.fix_id request)) as [e | [fx|]]; cbn; auto.
  rewrite Hd, Ha. reflexivity.
Qed.

Lemma count_partition (f : Doctor.BatchItem -> bool) (l : list Doctor.BatchItem) :
  (Doctor.count f l + Doctor.count (fun r => negb (f r)) l = length l)%nat.
Proof.
  unfold Doctor.count. induction l as [|x l IH]; cbn; [reflexivity|].
  destruct (f x); cbn; lia.
Qed.

Lemma batch_loop_ids (ids : list string) (auto : bool) (sys : Doctor.Sys) :
  map Doctor.item_fix_id (fst (batch_loop ids auto sys)) = ids.
Proof.
  revert sys. induction ids as [|id ids IH]; intros sys; [reflexivity|].
  unfold batch_loop in *. cbn [Doctor.batch_loop].
  destruct (Doctor.apply_fix _ _ _ _ _ sys) as [r sys'].
  specialize (IH sys').
  destruct (Doctor.batch_loop _ _ _ _ ids auto sys') as [items sys''].
  cbn in *. rewrite IH. destruct r; reflexivity.
Qed.

Lemma batch_loop_not_auto (ids : list string) (sys : Doctor.Sys) :
  snd (batch_loop ids false sys) = sys /\
  Forall (fun r => Doctor.item_success r = false) (fst (batch_loop ids false sys)).
Proof.
  induction ids as [|id ids [IH1 IH2]]; [split; [reflexivity | constructor]|].
  unfold batch_loop in *. cbn [Doctor.batch_loop].
  pose proof (apply_fix_idle (Doctor.mkFixRequest id false false) sys
                (or_intror eq_refl)) as Hs.
  pose proof (apply_fix_not_auto (Doctor.mkFixRequest id false false) sys
                eq_refl eq_refl) as Hr.
  unfold apply_fix in Hs, Hr.
  destruct (Doctor.apply_fix _ _ _ _ _ sys) as [r sys']. cbn in Hs, Hr. subst sys'.
  destruct (Doctor.batch_loop _ _ _ _ ids false sys) as [items sys''].
  cbn in *. split; [exact IH1|].
  constructor; [|exact IH2]. destruct r; cbn; auto.
Qed.

(** X20. [apply_fix] of the Doctor service touches the system only when it
    is asked to: with [dry_run] set, or without [auto_apply], no fix is
    handed to the executor and nothing is recorded; a dry run of a known
    fix succeeds and returns its commands joined by newlines, also when
    [auto_apply] is set; and with [dry_run] off and [auto_apply] on a known
    fix is handed to the executor exactly once. *)
Theorem apply_fix_executes_only_on_request
        (request : Doctor.FixRequest) (sys : Doctor.Sys) :
  (Doctor.dry_run request = true \/ Doctor.auto_apply request = false ->
   snd (apply_fix request sys) = sys) /\
  (forall fx, Doctor.dry_run request = true ->
     get_fix_by_id (Doctor.fix_id request) = inr (Some fx) ->
     fst (apply_fix request sys) =
     inr (Doctor.mkFixResponse true "Dry run - no commands executed"
            (Some (String.concat Doctor.newline (Doctor.commands fx))) None)) /\
  (forall fx, Doctor.dry_run request = false ->
     Doctor.auto_apply request = true ->
     get_fix_by_id (Doctor.fix_id request) = inr (Some fx) ->
     Doctor.executed (snd (apply_fix request sys)) = Doctor.executed sys ++ [fx]) /\
  (Doctor.dry_run request = false -> Doctor.auto_apply request = false ->
   forall fx, get_fix_by_id (Doctor.fix_id request) = inr (Some fx) ->
     fst (apply_fix request sys) =
     inr (Doctor.mkFixResponse false "auto_apply must be true to execute fix"
            None None)).
Proof.
  split; [apply apply_fix_idle|].
  unfold apply_fix, Doctor.apply_fix, Doctor.apply_fix_body.
  split; [|split].
  - intros fx Hd Hg. rewrite Hg, Hd. reflexivity.
  - intros fx Hd Ha Hg. rewrite Hg, Hd, Ha.
    destruct (execute_fix fx) as [e | [[ok out] errs]]; cbn; [reflexivity|].
    destruct (log_fix_applied fx ok); reflexivity.
  - intros Hd Ha fx Hg. rewrite Hg, Hd, Ha. reflexivity.
Qed.

(** X21. Every failure of [apply_fix] reaches the client as status 500:
    the handler catches what its own body raises, so the 404 it raises for
    an unknown fix id is itself turned into a 500 whose detail is the text
    of that 404, and nothing is executed. *)
Theorem apply_fix_masks_not_found
        (request : Doctor.FixRequest) (sys : Doctor.Sys) :
  (forall e, fst (apply_fix request sys) = inl e ->
             exists detail, e = Doctor.HTTPException 500 detail) /\
  (get_fix_by_id (Doctor.fix_id request) = inr None ->
   apply_fix request sys =
   (inl (Doctor.HTTPException 500
           (str_of (Doctor.HTTPException 404
                      ("Fix " ++ Doctor.fix_id request ++ " not found")))),
    sys)).
Proof.
  unfold apply_fix, Doctor.apply_fix. split.
  - intros e H.
    destruct (Doctor.apply_fix_body _ _ _ request sys) as [[e' | r] sys'];
      cbn in H; inversion H; eauto.
  - intros Hg. unfold Doctor.apply_fix_body. rewrite Hg. reflexivity.
Qed.

(** X22. [apply_fixes_batch] never raises and accounts for every id: the
    result lists the ids in the order given, [total] is their number, and
    [successful] and [failed] add up to [total]. *)
Theorem batch_accounts_for_every_fix
        (ids : list string) (auto : bool) (sys : Doctor.Sys) :
  let r := fst (apply_fixes_batch ids auto sys) in
  map Doctor.item_fix_id (Doctor.results r) = ids /\
  Doctor.total r = length ids /\
  (Doctor.successful r + Doctor.failed r = Doctor.total r)%nat.
Proof.
  unfold apply_fixes_batch, Doctor.apply_fixes_batch.
  pose proof (batch_loop_ids ids auto sys) as Hi. unfold batch_loop in Hi.
  destruct (Doctor.batch_loop _ _ _ _ ids auto sys) as [items sys'].
  cbn in *. split; [exact Hi|]. split; [reflexivity|].
  rewrite count_partition. rewrite <- Hi. symmetry. apply length_map.
Qed.

(** X23. [apply_fixes_batch] called without [auto_apply] (its default)
    applies nothing: no fix is handed to the executor, nothing is recorded,
    and every id is reported as failed. *)
Theorem batch_without_auto_apply_applies_nothing
        (ids : list string) (sys : Doctor.Sys) :
  snd (apply_fixes_batch ids false sys) = sys /\
  Doctor.successful (fst (apply_fixes_batch ids false sys)) = 0%nat /\
  Doctor.failed (fst (apply_fixes_batch ids false sys)) = length ids.
Proof.
  unfold apply_fixes_batch, Doctor.apply_fixes_batch.
  pose proof (batch_loop_ids ids false sys) as Hi.
  destruct (batch_loop_not_auto ids sys) as [Hs Hf].
  unfold batch_loop in Hi, Hs, Hf.
  destruct (Doctor.batch_loop _ _ _ _ ids false sys) as [items sys'].
  cbn in *. split; [exact Hs|].
  assert (H0 : Doctor.count Doctor.item_success items = 0%nat).
  { unfold Doctor.count. clear Hi. induction Hf as [|x l Hx _ IH]; cbn; [reflexivity|].
    rewrite Hx. exact IH. }
  split; [exact H0|].
  pose proof (count_partition Doctor.item_success items) as Hp.
  rewrite H0 in Hp. cbn in Hp. rewrite Hp, <- Hi. symmetry. apply length_map.
Qed.

End DoctorFixes.

Lemma count_high_le (items : list Json) (h : nat) :
  Doctor.count_high items = inr h -> (h <= length items)%nat.
Proof.
  revert h. induction items as [|i items IH]; cbn; intros h H.
  - inversion H. lia.
  - destruct (Doctor.py_get i "severity" JNull) as [e | v]; [discriminate|].
    destruct (Doctor.count_high items) as [e | n]; [discriminate|].
    specialize (IH n eq_refl).
    destruct (Doctor.json_eqb_str v "high"); inversion H; lia.
Qed.

Lemma length_list_ascii (s : string) :
  length (list_ascii_of_string s) = String.length s.
Proof. induction s as [|c s IH]; cbn; [reflexivity | rewrite IH; reflexivity]. Qed.

Lemma py_iter_len (x : Json) (items : list Json) (n : nat) :
  Doctor.py_len x = inr n -> Doctor.py_iter x = inr items -> length items = n.
Proof.
  destruct x; cbn; intros H1 H2; try discriminate;
    inversion H1; inversion H2; subst; clear H1 H2.
  - rewrite length_map. apply length_list_ascii.
  - reflexivity.
  - apply length_map.
Qed.

(** X24. [get_status] of the Doctor service answers either with status
    "unknown" (when there is no validation data: [None], an empty object)
    or with counts in which [high_priority_issues] never exceeds
    [total_issues]; whatever goes wrong, such as validation data of an
    unexpected shape, reaches the client as an [HTTPException] 500. *)
Theorem get_status_is_consistent
        (str_of : Doctor.Failure -> string) (read : Exn + Json) :
  (forall e, Doctor.get_status str_of read = inl e ->
             exists detail, e = Doctor.HTTPException 500 detail) /\
  (forall data, read = inr data -> truthy data = false ->
     Doctor.get_status str_of read =
     inr [("status", JStr "unknown");
          ("message", JStr "No validation data available")]) /\
  (forall data d, read = inr data -> truthy data = true ->
     Doctor.get_status str_of read = inr d ->
     exists n h,
       dict_get "total_issues" d = Some (JInt (Z.of_nat n)) /\
       dict_get "high_priority_issues" d = Some (JInt (Z.of_nat h)) /\
       (h <= n)%nat /\
       dict_keys d = ["status"; "total_issues"; "high_priority_issues";
                      "last_validation"; "services_checked"]).
Proof.
  unfold Doctor.get_status. split; [|split].
  - intros e H. destruct (Doctor.get_status_body read); inversion H; eauto.
  - intros data -> Ht. cbn. rewrite Ht. reflexivity.
  - intros data d -> Ht H. unfold Doctor.get_status_body in H. rewrite Ht in H.
    cbn [negb] in H.
    destruct (Doctor.py_get data "validation" (JObj [])) as [e | validation];
      [discriminate|].
    destruct (Doctor.py_get validation "status" (JStr "unknown")) as [e | status];
      [discriminate|].
    destruct (Doctor.py_get validation "issues" (JList [])) as [e | issues];
      [discriminate|].
    destruct (Doctor.py_len issues) as [e | n] eqn:En; [discriminate|].
    destruct (Doctor.py_iter issues) as [e | items] eqn:Ei; [discriminate|].
    destruct (Doctor.count_high items) as [e | h] eqn:Eh; [discriminate|].
    destruct (Doctor.py_get validation "timestamp" JNull) as [e | ts];
      [discriminate|].
    destruct (Doctor.py_get validation "services_checked" (JInt 0)) as [e | c];
      [discriminate|].
    inversion H; subst; clear H.
    exists n, h. repeat split.
    rewrite <- (py_iter_len issues items n En Ei). apply count_high_le, Eh.
Qed.

(** an example: two issues, one of high severity *)
Example get_status_example :
  Doctor.get_status (fun _ => "")
    (inr (JObj [("validation",
                 JObj [("status", JStr "issues_found");
                       ("issues", JList [JObj [("severity", JStr "high")];
                                         JObj [("severity", JStr "low")]]);
                       ("timestamp", JStr "2025-01-01T00:00:00Z")])])) =
  inr [("status", JStr "issues_found");
       ("total_issues", JInt 2);
       ("high_priority_issues", JInt 1);
       ("last_validation", JStr "2025-01-01T00:00:00Z");
       ("services_checked", JInt 0)].
Proof. reflexivity. Qed.

(** * The threshold defect seen from the extensions *)

Lemma convenience_deadlocks
      (L : string) (t : Tid) (m : Json) (kw : Dict) (now : string)
      (net : Response) (s : State) :
  forallb (fun k => negb (mem k ["self"; "level"; "message"])) (dict_keys kw) = true ->
  lock s = None ->
  (batch_size s <= Z.of_nat (length (buffer s)) + 1)%Z ->
  Canonical.convenience L t [m] kw now net s =
  Deadlock (set_buffer
              (buffer s ++ [Canonical.make_entry now L m (service_name s) kw])
              (set_lock (Some t) s)).
Proof.
  intros Hk Hl Hb.
  assert (Hk' : forallb (fun k => negb (mem k ["self"; "message"]))
                        (dict_keys kw) = true).
  { revert Hk. apply forallb_weaken. intros k.
    unfold mem. cbn. destruct (String.eqb k "self"), (String.eqb k "level"),
      (String.eqb k "message"); cbn; auto. }
  unfold Canonical.convenience, bind_args. cbn [bind_positional].
  rewrite bind_keywords_free by exact Hk'. cbn [forallb dict_has dict_get
    String.eqb Ascii.eqb Bool.eqb andb arg].
  unfold Canonical.call_log, bind_args. cbn [bind_positional].
  rewrite bind_keywords_free by exact Hk.
  cbn -[Canonical.log]. apply log_threshold_outcome; assumption.
Qed.

(** X25. The request hooks inherit the defect of the threshold call.  When
    the entry they log is the one that fills the buffer, [_after_request]
    of the Flask extension (path not skipped, bodies not logged) and
    [_before_request] of the sample application's extension never return:
    the thread serving the request is stuck on the logger's lock and the
    response is never handed back. *)
Theorem request_hooks_hang_at_threshold
        (decode : string -> Exn + list string) (ext : FlaskIntegration.Ext)
        (skip : list string) (rq : FlaskRequest) (rs : FlaskResponse)
        (duration_ms : Z) (t : Tid) (now : string) (clk : Z) (net : Response)
        (s : State) :
  lock s = None ->
  (batch_size s <= Z.of_nat (length (buffer s)) + 1)%Z ->
  (mem (rq_path rq) (FlaskIntegration.skip_paths ext) = false ->
   FlaskIntegration.log_body ext = false ->
   exists s',
     FlaskIntegration._after_request decode ext rq rs duration_ms t now net s =
     Deadlock s' /\ lock s' = Some t /\ sent s' = sent s) /\
  (mem (rq_path rq) skip = false ->
   exists s',
     AppExtension._before_request skip rq t now clk net s = Deadlock s' /\
     lock s' = Some t /\ sent s' = sent s).
Proof.
  intros Hl Hb. split.
  - intros Hs Hbody. unfold FlaskIntegration._after_request. rewrite Hs.
    unfold FlaskIntegration.full_context. rewrite Hbody.
    unfold FlaskIntegration.level_of_status,
      Canonical.error, Canonical.warn, Canonical.info, bind.
    destruct (500 <=? rs_status_code rs)%Z; [|destruct (400 <=? rs_status_code rs)%Z];
      cbn [String.eqb Ascii.eqb Bool.eqb];
      rewrite convenience_deadlocks by (reflexivity || assumption);
      eexists; repeat split.
  - intros Hs. unfold AppExtension._before_request. rewrite Hs.
    unfold SampleApp.info.
    rewrite sample_log_threshold_outcome by assumption.
    eexists. repeat split.
Qed.

Lemma request_hooks_hang_at_threshold_witness :
  let decode := ascii_chars in
  let ext := FlaskIntegration.default_ext in
  let rq := mkFlaskRequest "GET" "/" "root" [] JNull JNull [] "" in
  let rs := mkFlaskResponse 200 [] "" in
  let s := example_logger 1 in
  (mem (rq_path rq) (FlaskIntegration.skip_paths ext) = false ->
   FlaskIntegration.log_body ext = false ->
   exists s',
     FlaskIntegration._after_request decode ext rq rs 3 1 "t" (Status 200) s =
     Deadlock s' /\ lock s' = Some 1 /\ sent s' = sent s) /\
  (mem (rq_path rq) ["/health"] = false ->
   exists s',
     AppExtension._before_request ["/health"] rq 1 "t" 0 (Status 200) s =
     Deadlock s' /\
     lock s' = Some 1 /\ sent s' = sent s).
Proof.
  apply (request_hooks_hang_at_threshold ascii_chars
           FlaskIntegration.default_ext ["/health"]
           (mkFlaskRequest "GET" "/" "root" [] JNull JNull [] "")
           (mkFlaskResponse 200 [] "") 3 1 "t" 0 (Status 200) (example_logger 1)).
  - reflexivity.
  - vm_compute. discriminate.
Defined.

(** * Properties of the sample application's routes *)

Lemma dict_get_absent (k : string) (d : Dict) :
  ~ In k (map fst d) -> dict_get k d = None.
Proof.
  induction d as [|[k' v] d IH]; cbn; intros H; [reflexivity|].
  destruct (String.eqb k k') eqn:E.
  - apply String.eqb_eq in E. subst. tauto.
  - apply IH. tauto.
Qed.

(** looking a key up after a dictionary's items were inserted one by one *)
Lemma dict_get_fold_set (k : string) (l acc : Dict) :
  NoDup (map fst l) ->
  dict_get k (fold_left (fun d kv => dict_set (fst kv) (snd kv) d) l acc) =
  match dict_get k l with
  | Some v => Some v
  | None => dict_get k acc
  end.
Proof.
  revert acc. induction l as [|[k' v'] l IH]; intros acc Hn; [reflexivity|].
  inversion Hn as [|? ? Hk Hn']; subst. cbn [fold_left fst snd].
  rewrite IH by exact Hn'. cbn [dict_get].
  destruct (String.eqb k k') eqn:E.
  - apply String.eqb_eq in E. subst k'.
    rewrite dict_get_absent by exact Hk. apply dict_get_set_same.
  - apply String.eqb_neq in E.
    rewrite dict_get_set_other by exact E. reflexivity.
Qed.

(** X26. [create_user] of the sample application, for a JSON object (or no
    body) as payload and a logger with a free lock and room for two
    entries.  It answers 400 "Username required" exactly when [username]
    is missing or falsy, and 201 otherwise; either way two entries are
    logged.  In the created user a client-supplied [id] replaces the
    generated one, [created_at] is always the server's, and the username
    is the client's. *)
Theorem create_user_contract
        (payload : Json) (user_data : Dict) (random_id : Z) (created : string)
        (t : Tid) (now1 now2 : string) (clk1 clk2 : Z) (net : Response)
        (s : State) :
  py_or payload (JObj []) = JObj user_data ->
  NoDup (map fst user_data) ->
  lock s = None ->
  (Z.of_nat (length (buffer s)) + 2 < batch_size s)%Z ->
  exists body status e1 e2 s',
    SampleRoutes.create_user payload random_id created t now1 clk1 now2 clk2
                             net s =
    Returned (body, status) s' /\
    buffer s' = buffer s ++ [e1; e2] /\
    sent s' = sent s /\
    if truthy (SampleRoutes.get "username" user_data)
    then status = 201%Z /\
         exists user,
           body = JObj [("user", JObj user)] /\
           dict_get "id" user =
             Some (match dict_get "id" user_data with
                   | Some v => v
                   | None => JInt random_id
                   end) /\
           dict_get "created_at" user = Some (JStr (created ++ "Z")%string) /\
           dict_get "username" user = dict_get "username" user_data
    else status = 400%Z /\ body = JObj [("error", JStr "Username required")].
Proof.
  intros Hp Hn Hl Hb. unfold SampleRoutes.create_user. rewrite Hp.
  unfold SampleApp.info, SampleApp.warn, bind at 1.
  rewrite sample_log_below_threshold by (assumption || lia).
  destruct (truthy (SampleRoutes.get "username" user_data)) eqn:Ht; cbn [negb];
    unfold bind;
    rewrite sample_log_below_threshold
      by (cbn; try assumption; rewrite length_app; cbn; lia);
    do 5 eexists; (split; [reflexivity|]); cbn; rewrite <- app_assoc; cbn;
    (split; [reflexivity|]); (split; [reflexivity|]).
  - split; [reflexivity|]. eexists. split; [reflexivity|].
    unfold SampleRoutes.new_user.
    split; [|split].
    + rewrite dict_get_set_other by discriminate.
      rewrite dict_get_fold_set by exact Hn.
      destruct (dict_get "id" user_data); reflexivity.
    + apply dict_get_set_same.
    + rewrite dict_get_set_other by discriminate.
      rewrite dict_get_fold_set by exact Hn.
      unfold SampleRoutes.get in Ht.
      destruct (dict_get "username" user_data); [reflexivity|discriminate].
  - split; reflexivity.
Qed.

Lemma create_user_contract_witness :
  let payload := JObj [("username", JStr "mallory"); ("id", JInt 1)] in
  let user_data := [("username", JStr "mallory"); ("id", JInt 1)] in
  let s := SampleApp.init "http://localhost:3000/x" "key" "p" "svc" 100 5 0 in
  exists body status e1 e2 s',
    SampleRoutes.create_user payload 4711 "2025-01-01T00:00:00" 1 "t1" 3 "t2" 4
                             (Status 200) s =
    Returned (body, status) s' /\
    buffer s' = buffer s ++ [e1; e2] /\
    sent s' = sent s /\
    if truthy (SampleRoutes.get "username" user_data)
    then status = 201%Z /\
         exists user,
           body = JObj [("user", JObj user)] /\
           dict_get "id" user =
             Some (match dict_get "id" user_data with
                   | Some v => v
                   | None => JInt 4711
                   end) /\
           dict_get "created_at" user =
             Some (JStr ("2025-01-01T00:00:00" ++ "Z")%string) /\
           dict_get "username" user = dict_get "username" user_data
    else status = 400%Z /\ body = JObj [("error", JStr "Username required")].
Proof.
  apply (create_user_contract
           (JObj [("username", JStr "mallory"); ("id", JInt 1)])
           [("username", JStr "mallory"); ("id", JInt 1)] 4711
           "2025-01-01T00:00:00" 1 "t1" "t2" 3 4 (Status 200)
           (SampleApp.init "http://localhost:3000/x" "key" "p" "svc" 100 5 0)).
  - reflexivity.
  - cbn. repeat constructor; cbn; intuition discriminate.
  - reflexivity.
  - reflexivity.
Defined.

Section DiagnoseProperties.

Variables Issue FixObj : Type.
Variable severity : Issue -> string.
Variable issue_dict : Issue -> Json.
Variable fix_dict : FixObj -> Json.
Variable set_tools : FixObj -> list string -> FixObj.
Variable parse_issues : Json -> Exn + list Issue.
Variable generate_fix : Issue -> Exn + FixObj.
Variable suggest_tools : Issue -> Exn + list string.
Variable log_diagnosis : nat -> nat -> option Exn.
Variable get_timestamp : Exn + string.
Variable str_of : Doctor.Failure -> string.

Let each_issue :=
  Diagnosis.each_issue Issue FixObj severity issue_dict fix_dict set_tools
                       generate_fix suggest_tools.
Let diagnose :=
  Diagnosis.diagnose Issue FixObj severity issue_dict fix_dict set_tools
                     parse_issues generate_fix suggest_tools log_diagnosis
                     get_timestamp str_of.

Let is_high (i : Issue) : bool := String.eqb (severity i) "high".

Lemma each_issue_collects (issues : list Issue) (acc items : list (Json * Json))
      (high h : nat) :
  each_issue issues acc high = inr (items, h) ->
  map fst items = map fst acc ++ map issue_dict issues /\
  h = (high + length (filter is_high issues))%nat.
Proof.
  revert acc high. induction issues as [|i issues IH]; intros acc high H.
  - cbn in H. inversion H; subst. cbn. rewrite app_nil_r. split; [reflexivity | lia].
  - unfold each_issue in *. cbn [Diagnosis.each_issue] in H.
    destruct (generate_fix i) as [e | fx]; [discriminate|].
    destruct (suggest_tools i) as [e | tools]; [discriminate|].
    apply IH in H. destruct H as [H1 H2].
    rewrite map_app in H1. cbn in H1. rewrite <- app_assoc in H1. cbn in H1.
    split; [exact H1|]. rewrite H2. cbn [filter]. unfold is_high at 2.
    destruct (String.eqb (severity i) "high"); cbn; lia.
Qed.

(** X27. [diagnose] of the Doctor service.  A diagnosis that is returned
    is consistent with the issues parsed from the validation data: there
    is one item per issue, in order; [total_issues] is their number and
    [high_priority] the number of those of severity "high"; the status is
    "healthy" exactly when there is no issue.  Every failure reaches the
    client as status 500, the 404 raised for missing validation data
    included. *)
Theorem diagnose_is_consistent (read : Exn + Json) :
  (forall e, diagnose read = inl e ->
             exists detail, e = Doctor.HTTPException 500 detail) /\
  (forall data, read = inr data -> truthy data = false ->
     diagnose read =
     inl (Doctor.HTTPException 500
            (str_of (Doctor.HTTPException 404
                       "Validation file not found. Run docker-validate.sh first.")))) /\
  (forall r, diagnose read = inr r ->
     exists data issues,
       read = inr data /\ parse_issues data = inr issues /\
       map fst (Diagnosis.issues_with_fixes r) = map issue_dict issues /\
       Diagnosis.total_issues r = length issues /\
       Diagnosis.high_priority r = length (filter is_high issues) /\
       (Diagnosis.high_priority r <= Diagnosis.total_issues r)%nat /\
       Diagnosis.status r =
         match issues with [] => "healthy" | _ => "issues_found" end).
Proof.
  unfold diagnose, Diagnosis.diagnose. split; [|split].
  - intros e H. destruct (Diagnosis.diagnose_body _ _ _ _ _ _ _ _ _ _ _ read);
      inversion H; eauto.
  - intros data -> Ht. cbn. rewrite Ht. reflexivity.
  - intros r H. unfold Diagnosis.diagnose_body in H.
    destruct read as [e | data]; [discriminate|].
    destruct (truthy data); cbn [negb] in H; [|discriminate].
    destruct (parse_issues data) as [e | issues] eqn:Ep; [discriminate|].
    exists data, issues. split; [reflexivity|]. split; [exact Ep|]. clear Ep.
    destruct issues as [|i issues].
    + destruct get_timestamp as [e | ts]; inversion H; subst. cbn. auto.
    + destruct (Diagnosis.each_issue _ _ _ _ _ _ _ _ (i :: issues) [] 0)
        as [e | [items h]] eqn:Ee; [discriminate|].
      apply each_issue_collects in Ee. destruct Ee as [E1 E2].
      destruct (log_diagnosis _ h); [discriminate|].
      destruct get_timestamp as [e | ts]; inversion H; subst. cbn [Diagnosis.issues_with_fixes
        Diagnosis.total_issues Diagnosis.high_priority Diagnosis.status].
      split; [exact E1|]. split; [reflexivity|]. split; [reflexivity|].
      split; [apply filter_length_le | reflexivity].
Qed.

End DiagnoseProperties.

(** * No entry lost *)

Section History.

Variable t : Tid.

Lemma history_flush (net : Response) (s : State) :
  handled net = true ->
  history (final_state (Canonical.flush t net s)) = history s.
Proof.
  intros Hh.
  destruct s as [k u p sv B I buf lk tm sn dg ck ah].
  unfold Canonical.flush, Canonical.flush_begin, with_lock, acquire, bind, get.
  cbn [lock buffer].
  destruct lk as [owner|]; [destruct (Nat.eqb owner t); reflexivity|].
  destruct buf as [|e buf]; [reflexivity|].
  unfold history, delivered_logs.
  destruct net as [code | msg | msg]; [| |discriminate].
  - unfold_py. cbn. destruct (Canonical.success code) eqn:Es; cbn.
    + rewrite flat_map_app. cbn. rewrite Es. cbn.
      rewrite !app_nil_r. reflexivity.
    + rewrite flat_map_app. cbn. rewrite Es. cbn.
      rewrite !app_nil_r. reflexivity.
  - unfold_py. cbn. rewrite flat_map_app. cbn. rewrite !app_nil_r. reflexivity.
Qed.

Lemma history_log (level message : Json) (context : Dict) (now : string)
      (net : Response) (s : State) :
  grows_by_one (history s)
               (history (final_state (Canonical.log t level message context now net s))).
Proof.
  unfold Canonical.log. destruct level as [| | |l| |]; try (left; reflexivity).
  unfold with_lock, acquire, bind, get, modify.
  destruct (lock s) as [owner|] eqn:El.
  - left. destruct (Nat.eqb owner t); reflexivity.
  - right. eexists.
    cbn [buffer batch_size set_buffer set_lock].
    destruct (batch_size s <=? _)%Z.
    + rewrite flush_reentrant by reflexivity. cbn [final_state].
      unfold history, delivered_logs. cbn. rewrite app_assoc. reflexivity.
    + cbn. unfold history, delivered_logs. cbn. rewrite app_assoc. reflexivity.
Qed.

Lemma history_call_log (pos : list Json) (kw : Dict) (now : string)
      (net : Response) (s : State) :
  grows_by_one (history s)
               (history (final_state (Canonical.call_log t pos kw now net s))).
Proof.
  unfold Canonical.call_log.
  destruct (bind_args _ _ _) as [e | [bound context]];
    [left; reflexivity | apply history_log].
Qed.

Lemma history_convenience (L : string) (pos : list Json) (kw : Dict)
      (now : string) (net : Response) (s : State) :
  grows_by_one (history s)
               (history (final_state (Canonical.convenience L t pos kw now net s))).
Proof.
  unfold Canonical.convenience.
  destruct (bind_args _ _ _) as [e | [bound context]];
    [left; reflexivity | apply history_call_log].
Qed.

Lemma history_invoke (name : string) (pos : list Json) (kw : Dict)
      (now : string) (net : Response) (s : State) :
  handled net = true ->
  grows_by_one (history s)
               (history (final_state (Canonical.invoke name t pos kw now net s))).
Proof.
  intros Hh.
  unfold Canonical.invoke, Canonical.debug, Canonical.info, Canonical.warn,
    Canonical.error.
  repeat match goal with
         | |- context [if ?b then _ else _] => destruct b
         | |- context [match bind_args ?a ?b ?c with _ => _ end] =>
             destruct (bind_args a b c) as [? | [? [|? ?]]]
         end;
    auto using history_call_log, history_convenience;
    try (left; reflexivity).
  left. apply history_flush, Hh.
Qed.

Lemma history_timer_fires (net : Response) (s : State) :
  history (final_state (Canonical.timer_fires t net s)) = history s.
Proof.
  unfold Canonical.timer_fires. destruct (timer s) as [d|]; [|reflexivity].
  destruct s as [k u p sv B I buf lk tm sn dg ck ah].
  unfold Canonical.flush_periodically, with_lock, acquire, bind, get.
  cbn [lock buffer set_timer set_clock set_lock].
  destruct lk as [owner|]; [destruct (Nat.eqb owner t); reflexivity|].
  destruct buf as [|e buf]; [reflexivity|].
  cbn -[Canonical.flush history].
  rewrite flush_reentrant by reflexivity. reflexivity.
Qed.

End History.

(** X28. As long as every POST is answered or fails with a
    [RequestException], and calls on the logger do not overlap, logger.py
    loses no entry: the entries of the requests answered with status 200 or
    201, oldest first, followed by the buffer form one sequence that each
    method call or timer firing leaves as it is or continues by exactly one
    entry, so along any such execution it only grows, at its end.  An entry
    of a request answered with 200 or 201 is thus not in the buffer any
    more, and an entry of a request answered otherwise, or not answered, is
    still in the buffer and is posted again by a later flush, whether or
    not the collector had received it. *)
Theorem history_only_grows (s0 s : State) :
  calm_reachable s0 s ->
  (exists new, history s = history s0 ++ new) /\
  (forall s', calm_step s s' -> grows_by_one (history s) (history s')).
Proof.
  intros Hr.
  assert (Hstep : forall a b, calm_step a b -> grows_by_one (history a) (history b)).
  { intros a b Hs. destruct Hs as [name t pos kw now net x Hh | t net x Hh].
    - apply history_invoke, Hh.
    - left. apply history_timer_fires. }
  split; [|apply Hstep].
  induction Hr as [|a b _ [new IH] Hs].
  - exists []. rewrite app_nil_r. reflexivity.
  - destruct (Hstep a b Hs) as [E | [e E]]; rewrite E, IH.
    + exists new. reflexivity.
    + exists (new ++ [e]). rewrite app_assoc. reflexivity.
Qed.

Lemma history_only_grows_witness :
  let s0 := example_logger 100 in
  let s := final_state (Canonical.invoke "flush" 1 [] [] "t2" (Status 500)
             (final_state (Canonical.invoke "info" 1 [JStr "hello"] [] "t1"
                             (Status 200) s0))) in
  (exists new, history s = history s0 ++ new) /\
  (forall s', calm_step s s' -> grows_by_one (history s) (history s')).
Proof.
  apply (history_only_grows (example_logger 100)).
  eapply calm_next; [eapply calm_next; [apply calm_init|]|];
    apply calm_call; reflexivity.
Defined.

(** a batch answered with 204, or timed out, is posted again by the next
    flush: the same entries go out in two requests *)
Example unacknowledged_batch_is_posted_again :
  let s0 := final_state (Canonical.invoke "info" 1 [JStr "hello"] [] "t1"
                           (Status 200) (example_logger 100)) in
  forall net, In net [Status 204; TransportFailure "timeout"] ->
    let s := final_state (Canonical.invoke "flush" 1 [] [] "t3" (Status 200)
               (final_state (Canonical.invoke "flush" 1 [] [] "t2" net s0))) in
    map (fun ra => req_logs (fst ra)) (sent s) = [buffer s0; buffer s0] /\
    map snd (sent s) = [net; Status 200] /\
    length (buffer s0) = 1%nat /\
    buffer s = [] /\
    history s = buffer s0.
Proof.
  cbv zeta. intros net [<- | [<- | []]]; vm_compute; auto.
Qed.
